(** * pilatusAPI, utils.py: a shallow embedding and its verified properties

    The module fetches transcripts from the Quartr API, reflows them
    ([TranscriptProcessor.format_transcript_text]), renders them with
    reportlab ([TranscriptProcessor.create_pdf]) and names the uploaded
    artifact ([SupabaseStorageHandler.create_filename],
    [S3Handler.create_filename]).

    Python [str] values are sequences of Unicode code points; they are
    modelled as lists of code points.  The effectful parts (the aiohttp
    session and the reportlab layout engine) are modelled by a small
    state-and-exception monad that records every call made to them. *)

From Stdlib Require Import List NArith ZArith Bool Lia Ascii String.
Import ListNotations.

Set Implicit Arguments.
Set Warnings "-register-all".

(** ** Python strings *)

Definition char := N.
Definition str := list char.

(** An ASCII literal as a Python string. *)
Definition lit (s : string) : str :=
  List.map N_of_ascii (list_ascii_of_string s).

Definition NL : char := 10%N.         (* '\n' *)
Definition SP : char := 32%N.         (* ' '  *)
Definition DOT : char := 46%N.        (* '.'  *)
Definition BACKSLASH : char := 92%N.  (* '\\' *)
Definition LOWER_N : char := 110%N.   (* 'n'  *)
Definition AMP : char := 38%N.        (* '&'  *)
Definition LT : char := 60%N.         (* '<'  *)
Definition GT : char := 62%N.         (* '>'  *)
Definition SLASH : char := 47%N.      (* '/'  *)

Definition str_eqb (a b : str) : bool :=
  if list_eq_dec N.eq_dec a b then true else false.

(** Truth value of a string: [bool(s)]. *)
Definition nonempty (s : str) : bool :=
  match s with [] => false | _ :: _ => true end.

(** [str.isspace] on one code point: the code points CPython's
    [_PyUnicode_IsWhitespace] accepts.  [str.split()] and [str.strip()]
    use the same test. *)
Definition isspace (c : char) : bool :=
  ((9 <=? c) && (c <=? 13) || (28 <=? c) && (c <=? 32)
   || (c =? 133) || (c =? 160) || (c =? 5760)
   || (8192 <=? c) && (c <=? 8202)
   || (c =? 8232) || (c =? 8233) || (c =? 8239) || (c =? 8287)
   || (c =? 12288))%N.

(** [s.startswith(p)] *)
Fixpoint starts_with (p s : str) : bool :=
  match p, s with
  | [], _ => true
  | _ :: _, [] => false
  | a :: p', b :: s' => N.eqb a b && starts_with p' s'
  end.

(** [s.endswith(p)] *)
Definition ends_with (p s : str) : bool :=
  starts_with (rev p) (rev s).

(** [p in s] for two strings. *)
Fixpoint contains (p s : str) : bool :=
  starts_with p s || match s with [] => false | _ :: s' => contains p s' end.

(** [s.replace(old, new)]: occurrences of [old] are found from the left and
    do not overlap.  [skip] counts the characters of a match still to be
    dropped. *)
Fixpoint replace_from (old new : str) (skip : nat) (s : str) : str :=
  match s with
  | [] => []
  | c :: r =>
      match skip with
      | S k => replace_from old new k r
      | O =>
          if starts_with old s
          then new ++ replace_from old new (Nat.pred (List.length old)) r
          else c :: replace_from old new 0 r
      end
  end.

Definition replace (old new s : str) : str :=
  match old with
  | [] => new ++ flat_map (fun c => c :: new) s
  | _ :: _ => replace_from old new 0 s
  end.

(** Prepend a character to the first piece of a split. *)
Definition cons_head (c : char) (l : list str) : list str :=
  match l with
  | [] => [[c]]
  | w :: ws => (c :: w) :: ws
  end.

(** Cut a string at every character that satisfies [p]; empty pieces are
    kept, so the result is never the empty list. *)
Fixpoint split_by (p : char -> bool) (s : str) : list str :=
  match s with
  | [] => [[]]
  | c :: r => if p c then [] :: split_by p r else cons_head c (split_by p r)
  end.

(** [s.split(sep)] for a non-empty separator (Python raises [ValueError]
    on the empty one; the module never passes it). *)
Fixpoint split_from (sep : str) (skip : nat) (s : str) : list str :=
  match s with
  | [] => [[]]
  | c :: r =>
      match skip with
      | S k => split_from sep k r
      | O =>
          if starts_with sep s
          then [] :: split_from sep (Nat.pred (List.length sep)) r
          else cons_head c (split_from sep 0 r)
      end
  end.

Definition split (sep s : str) : list str := split_from sep 0 s.

(** [s.split()]: the maximal runs of non-whitespace characters. *)
Definition split_ws (s : str) : list str :=
  filter nonempty (split_by isspace s).

(** [sep.join(l)] *)
Fixpoint join (sep : str) (l : list str) : str :=
  match l with
  | [] => []
  | [w] => w
  | w :: ((_ :: _) as ws) => w ++ sep ++ join sep ws
  end.

Fixpoint drop_while (p : char -> bool) (s : str) : str :=
  match s with
  | [] => []
  | c :: r => if p c then drop_while p r else s
  end.

Definition lstrip (s : str) : str := drop_while isspace s.
Definition rstrip (s : str) : str := rev (drop_while isspace (rev s)).
(** [s.strip()] *)
Definition strip (s : str) : str := rstrip (lstrip s).

Definition QUOTE : char := 34%N.      (* the double quote *)

(** [l[-k]] for [k >= 1]; [None] stands for Python's [IndexError]. *)
Definition index_from_end (A : Type) (l : list A) (k : nat) : option A :=
  nth_error (rev l) (Nat.pred k).

(** [p[i:j]] for [0 <= i <= j]. *)
Definition slice (p : str) (i j : nat) : str := firstn (j - i) (skipn i p).

(** [s.rfind(c)] for a one-character [c]: the last index, or [-1]. *)
Fixpoint rfind_from (c : char) (s : str) (i : Z) (found : Z) : Z :=
  match s with
  | [] => found
  | x :: r => rfind_from c r (i + 1) (if N.eqb x c then i else found)
  end.

Definition rfind (c : char) (s : str) : Z := rfind_from c s 0 (-1).

(** [str.lower] and [str.isdigit] restricted to ASCII, where they agree
    with Python; the definitions below take the Unicode tables as
    parameters and these are the instances used on ASCII examples. *)
Definition ascii_lower_char (c : char) : char :=
  if ((65 <=? c) && (c <=? 90))%N then (c + 32)%N else c.
Definition ascii_lower (s : str) : str := List.map ascii_lower_char s.
Definition ascii_isdigit_char (c : char) : bool := ((48 <=? c) && (c <=? 57))%N.

(** ** os.path.splitext (posixpath: sep is the slash, no altsep) *)

Module os_path.

Fixpoint splitext_scan (p : str) (dotIndex filenameIndex : Z) (fuel : nat)
  : str * str :=
  match fuel with
  | O => (p, [])
  | S fuel' =>
      if (filenameIndex <? dotIndex)%Z then
        if negb (str_eqb (slice p (Z.to_nat filenameIndex)
                                  (Z.to_nat (filenameIndex + 1))) [DOT])
        then (firstn (Z.to_nat dotIndex) p, skipn (Z.to_nat dotIndex) p)
        else splitext_scan p dotIndex (filenameIndex + 1) fuel'
      else (p, [])
  end.

Definition splitext (p : str) : str * str :=
  let sepIndex := rfind SLASH p in
  let dotIndex := rfind DOT p in
  if (dotIndex >? sepIndex)%Z then
    (* skip all leading dots *)
    let filenameIndex := (sepIndex + 1)%Z in
    splitext_scan p dotIndex filenameIndex (Z.to_nat (dotIndex - filenameIndex))
  else (p, []).

End os_path.

(** ** Storage keys *)

Module SupabaseStorageHandler.
Section WithUnicode.
(** [str.lower] *)
Variable lower : str -> str.

Definition create_filename
      (company_name event_date event_title doc_type original_filename : str)
    : str :=
    let safe_company :=
      replace (lit "-") (lit "_") (replace (lit " ") (lit "_") (lower company_name)) in
    let safe_date := replace (lit "-") [] event_date in
    let safe_title := firstn 30 (replace (lit " ") (lit "_") (lower event_title)) in
    let ext := snd (os_path.splitext original_filename) in
    let ext := if negb (nonempty ext) then lit ".pdf" else ext in
    safe_company ++ lit "/" ++ doc_type ++ lit "/"
      ++ safe_company ++ lit "_" ++ safe_date ++ lit "_" ++ doc_type ++ ext.
End WithUnicode.
End SupabaseStorageHandler.

Module S3Handler.
Section WithUnicode.
Variable lower : str -> str.

Definition create_filename
      (company_name event_date event_title doc_type original_filename : str)
    : str :=
    let clean_company :=
      lower (replace (lit "/") (lit "_") (replace (lit " ") (lit "_") company_name)) in
    let clean_event := lower (replace (lit " ") (lit "_") event_title) in
    let clean_date := hd [] (split (lit "T") event_date) in
    let original_filename :=
      if contains (lit "?") original_filename
      then hd [] (split (lit "?") original_filename)
      else original_filename in
    let file_extension :=
      if str_eqb doc_type (lit "transcript") then lit "pdf"
      else lower (last (split (lit ".") original_filename) []) in
    clean_company ++ lit "_" ++ clean_date ++ lit "_" ++ clean_event
      ++ lit "_" ++ doc_type ++ lit "." ++ file_extension.
End WithUnicode.
End S3Handler.

(** ** Python values, exceptions and the effect monad *)

Inductive exn : Type :=
| TypeError | AttributeError | KeyError | IndexError
| JSONDecodeError
| OtherError (code : N).   (* any other subclass of Exception *)

Inductive res (A : Type) : Type :=
| Ok (a : A)
| Raise (e : exn).
Arguments Ok {A} a.
Arguments Raise {A} e.

(** The values [json.loads] produces (and Python dictionaries built from
    them).  A dictionary is the list of its items under string keys. *)
Inductive pyval : Type :=
| PNone
| PBool (b : bool)
| PInt (z : Z)
| PFloat (bits : Z)      (* the binary64 pattern of the float *)
| PStr (s : str)
| PList (l : list pyval)
| PDict (d : list (str * pyval)).

Definition dict := list (str * pyval).

(** [bool(v)] *)
Definition truthy (v : pyval) : bool :=
  match v with
  | PNone => false
  | PBool b => b
  | PInt z => negb (z =? 0)%Z
  | PFloat bits => negb (Z.land bits (2 ^ 63 - 1) =? 0)%Z   (* not +0.0, -0.0 *)
  | PStr s => nonempty s
  | PList l => match l with [] => false | _ => true end
  | PDict d => match d with [] => false | _ => true end
  end.

Fixpoint lookup (k : str) (d : dict) : option pyval :=
  match d with
  | [] => None
  | (k', v) :: d' => if str_eqb k k' then Some v else lookup k d'
  end.

Definition is_str (k : str) (v : pyval) : bool :=
  match v with PStr s => str_eqb k s | _ => false end.

(** [k in v] for a string [k]. *)
Definition py_in (k : str) (v : pyval) : res bool :=
  match v with
  | PStr s => Ok (contains k s)
  | PList l => Ok (existsb (is_str k) l)
  | PDict d => Ok (match lookup k d with Some _ => true | None => false end)
  | _ => Raise TypeError
  end.

(** [v[k]] for a string [k]. *)
Definition py_getitem (v : pyval) (k : str) : res pyval :=
  match v with
  | PDict d => match lookup k d with Some x => Ok x | None => Raise KeyError end
  | _ => Raise TypeError
  end.

(** [v.get(k, default)] *)
Definition py_get (v : pyval) (k : str) (default : pyval) : res pyval :=
  match v with
  | PDict d => Ok (match lookup k d with Some x => x | None => default end)
  | _ => Raise AttributeError
  end.

(** Computations over a world [W] that may raise. *)
Definition M (W A : Type) : Type := W -> W * res A.

Definition ret {W A} (a : A) : M W A := fun w => (w, Ok a).
Definition raise {W A} (e : exn) : M W A := fun w => (w, Raise e).
Definition lift {W A} (r : res A) : M W A := fun w => (w, r).
Definition bind {W A B} (m : M W A) (k : A -> M W B) : M W B :=
  fun w => match m w with
           | (w', Ok a) => k a w'
           | (w', Raise e) => (w', Raise e)
           end.
(** [try: m  except Exception as e: h e] *)
Definition try_except {W A} (m : M W A) (h : exn -> M W A) : M W A :=
  fun w => match m w with
           | (w', Ok a) => (w', Ok a)
           | (w', Raise e) => h e w'
           end.

(** Computations that leave the world alone. *)
Definition quiet {W A} (m : M W A) : Prop := forall w, exists o, m w = (w, o).

Declare Scope py_scope.
Delimit Scope py_scope with py.
Notation "x <- m ;; k" := (bind m (fun x => k))
  (at level 61, m at next level, right associativity) : py_scope.
Open Scope py_scope.

(** ** The HTTP session *)

Definition bytes := list N.
Definition headers := list (str * str).

(** What the client code reads from an aiohttp response. *)
Record Response : Type := mkResponse {
  status : Z;
  resp_json : res pyval;   (* await response.json() *)
  resp_text : res str;     (* await response.text() *)
  resp_read : res bytes    (* await response.read() *)
}.

(** One [session.get] that reached the session, with what it answered. *)
Record Fetch : Type := mkFetch {
  fetch_url : str;
  fetch_headers : headers;
  fetch_params : dict;
  fetch_outcome : res Response
}.

Definition bad_outcome (o : res Response) : bool :=
  match o with
  | Ok r => negb (status r =? 200)%Z
  | Raise _ => true
  end.

Definition QUARTR_HEADER_NAME : str := lit "X-Api-Key".

Section Http.

(** The session is an arbitrary stateful server: an answer may depend on
    everything requested before. *)
Variable Session : Type.
Variable session_get : Session -> str -> headers -> dict -> Session * res Response.

Record World : Type := mkWorld {
  sess : Session;
  fetches : list Fetch
}.

Definition http_get (url : str) (h : headers) (params : dict) : M World Response :=
  fun w =>
    let (s', o) := session_get (sess w) url h params in
    (mkWorld s' (fetches w ++ [mkFetch url h params o]), o).

(** What the session answers to a request made in world [w], and the world
    after it. *)
Definition answer (w : World) (url : str) (h : headers) (params : dict)
  : res Response :=
  snd (session_get (sess w) url h params).

Definition after_get (w : World) (url : str) (h : headers) (params : dict)
  : World :=
  mkWorld (fst (session_get (sess w) url h params))
          (fetches w ++ [mkFetch url h params (answer w url h params)]).

(** The requests listed in [l] ended badly: the answer to the last one was
    a non-200 response or an exception (or no request was made at all). *)
Definition last_bad (l : list Fetch) : bool :=
  match rev l with
  | [] => true
  | f :: _ => bad_outcome (fetch_outcome f)
  end.




(** [session.get(v, headers=h)] for an arbitrary value: anything but a
    string is refused with [TypeError] when the URL object is built, before
    any request is made. *)
Definition http_get_val (v : pyval) (h : headers) : M World Response :=
  match v with
  | PStr url => http_get url h []
  | _ => raise TypeError
  end.

End Http.

(** A session that plays back a list of answers, one per request, and
    fails once the list is used up. *)
Definition scripted_get (s : list (res Response)) (url : str) (h : headers)
    (params : dict) : list (res Response) * res Response :=
  match s with
  | [] => ([], Raise (OtherError 0))
  | o :: s' => (s', o)
  end.

(** An answer with the given status whose body is the JSON value [v]. *)
Definition json_response (st : Z) (v : pyval) : res Response :=
  Ok (mkResponse st (Ok v) (Ok []) (Ok [])).

(** ** QuartrAPI *)

Module QuartrAPI.
Section WithSession.

Variable Session : Type.
Variable session_get : Session -> str -> headers -> dict -> Session * res Response.
(** [self.api_key] *)
Variable api_key : str.

Definition base_url : str := lit "https://api.quartr.com/public/v1".
Definition self_headers : headers := [(QUARTR_HEADER_NAME, api_key)].

Definition get_company_events (company_id event_type : str)
  : M (World Session) pyval :=
  let url := base_url ++ lit "/companies/" ++ company_id ++ lit "/earlier-events" in
  let params :=
    (if negb (str_eqb event_type (lit "all"))
     then [(lit "type", PStr event_type)] else [])
    ++ [(lit "limit", PInt 10); (lit "page", PInt 1)] in
  try_except
    (response <- http_get session_get url self_headers params ;;
     if (status response =? 200)%Z then
       data <- lift (resp_json response) ;;
       events <- lift (py_get data (lit "data") (PList [])) ;;
       ret (PDict [(lit "events", events)])
     else
       response_text <- lift (resp_text response) ;;
       ret (PDict []))
    (fun _ => ret (PDict [])).

Definition get_company_info (company_id : str) : M (World Session) pyval :=
  let url := base_url ++ lit "/companies/" ++ company_id in
  try_except
    (response <- http_get session_get url self_headers [] ;;
     if (status response =? 200)%Z then
       data <- lift (resp_json response) ;;
       ret data
     else
       response_text <- lift (resp_text response) ;;
       ret (PDict []))
    (fun _ => ret (PDict [])).

(** Returns the body, or [None]. *)
Definition get_document (doc_url : str) : M (World Session) (option bytes) :=
  try_except
    (response <- http_get session_get doc_url [] [] ;;
     if (status response =? 200)%Z then
       body <- lift (resp_read response) ;;
       ret (Some body)
     else ret None)
    (fun _ => ret None).

(** The name shown when the company cannot be looked up. *)
Definition fallback_name (company_id : str) : str := lit "Company-" ++ company_id.

Definition _get_company_name_direct (company_id : str) : M (World Session) pyval :=
  try_except
    (let url := base_url ++ lit "/companies/" ++ company_id in
     response <- http_get session_get url self_headers [] ;;
     if (status response =? 200)%Z then
       data <- lift (resp_json response) ;;
       lift (py_get data (lit "displayName") (PStr (fallback_name company_id)))
     else ret (PStr (fallback_name company_id)))
    (fun _ => ret (PStr (fallback_name company_id))).

End WithSession.
End QuartrAPI.

(** ** The layout engine (reportlab) *)

Inductive StyleName : Type := CustomHeader | CustomText.

Inductive Flowable : Type :=
| Paragraph (text : str) (style : StyleName)
| Spacer (width height : Z).

(** Every call into reportlab that [create_pdf] makes. *)
Inductive EngineCall : Type :=
| NewSimpleDocTemplate (rightMargin leftMargin topMargin bottomMargin : Z)
| GetSampleStyleSheet
| NewParagraphStyle (name : StyleName) (fontSize : Z)
| NewParagraph (text : str) (style : StyleName)
| NewSpacer (width height : Z)
| Build (story : list Flowable).

Definition EngineLog := list EngineCall.

(** ** Shapes of text used to state the formatter's properties *)

(** Every pair of neighbours in [s] satisfies [R]. *)
Fixpoint chain (R : char -> char -> bool) (s : str) : bool :=
  match s with
  | a :: ((b :: _) as t) => R a b && chain R t
  | _ => true
  end.

(** [x] may be followed by [y]: the two do not meet at a pair that [R]
    rejects. *)
Definition link (R : char -> char -> bool) (x y : str) : bool :=
  match x, y with
  | _ :: _, b :: _ => R (last x 0%N) b
  | _, _ => true
  end.

(** Not the two characters backslash, n. *)
Definition not_escaped_nl (a b : char) : bool :=
  negb (N.eqb a BACKSLASH && N.eqb b LOWER_N).

Definition not_both_space (a b : char) : bool :=
  negb (isspace a && isspace b).

(** The only whitespace character allowed is the space. *)
Definition space_or_text (c : char) : bool := negb (isspace c) || N.eqb c SP.

Definition not_dot (c : char) : bool := negb (N.eqb DOT c).

Definition head_nonspace (s : str) : bool :=
  match s with
  | [] => true
  | c :: _ => negb (isspace c)
  end.

Fixpoint last_nonspace (s : str) : bool :=
  match s with
  | [] => true
  | [c] => negb (isspace c)
  | _ :: r => last_nonspace r
  end.

(** Whitespace occurs only as single spaces between other characters. *)
Definition single_spaced (s : str) : bool :=
  forallb space_or_text s && chain not_both_space s.

(** A sentence as the formatter produces it: not empty, without a period,
    without the escaped newline, single-spaced, no space at either end. *)
Definition clean (u : str) : bool :=
  nonempty u && forallb not_dot u && chain not_escaped_nl u
  && single_spaced u && head_nonspace u && last_nonspace u.

(** Whitespace or period. *)
Definition blank_char (c : char) : bool := isspace c || N.eqb c DOT.

(** ** TranscriptProcessor *)

Module TranscriptProcessor.

(** The two-character text backslash, n. *)
Definition ESCAPED_NL : str := [BACKSLASH; LOWER_N].
Definition PARA_SEP : str := [DOT; NL; NL].

Definition format_transcript_text (text : str) : str :=
  let text := replace ESCAPED_NL [NL] text in
  let text := join [SP] (split_ws text) in
  let sentences :=
    List.map strip (filter (fun s => nonempty (strip s)) (split [DOT] text)) in
  let formatted_text := join PARA_SEP sentences ++ [DOT] in
  formatted_text.

(** The steps of [format_transcript_text] by name: the whitespace
    collapse of line 329, the sentence list of line 332 and the final join
    of line 333. *)
Definition collapse (text : str) : str := join [SP] (split_ws text).

Definition sentences_of (text : str) : list str :=
  List.map strip (filter (fun s => nonempty (strip s)) (split [DOT] text)).

Definition paragraphs_of (sentences : list str) : str :=
  join PARA_SEP sentences ++ [DOT].

(** [format_transcript_text(v)] on an arbitrary value: only a string has
    a [replace] method. *)
Definition format_transcript_value (v : pyval) : res str :=
  match v with
  | PStr s => Ok (format_transcript_text s)
  | _ => Raise AttributeError
  end.

Definition APP_HOST : str := lit "app.quartr.com".
Definition API_HOST : str := lit "api.quartr.com".
Definition API_DOCUMENT_URL : str :=
  lit "https://api.quartr.com/public/v1/transcripts/document/".

Section WithSession.

Variable Session : Type.
Variable session_get : Session -> str -> headers -> dict -> Session * res Response.
(** The module constant read from the secrets. *)
Variable QUARTR_API_KEY : str.
(** [str.isdigit] on one code point (a Unicode table). *)
Variable isdigit_char : char -> bool.

Definition isdigit (s : str) : bool := nonempty s && forallb isdigit_char s.

Definition api_headers : headers := [(QUARTR_HEADER_NAME, QUARTR_API_KEY)].

(** The headers line 287 chooses for the URL [u]. *)
Definition headers_for (u : str) : headers :=
  if contains API_HOST u then api_headers else [].

(** Lines 259-262: the raw transcript URL named by the transcripts object,
    [PNone] when there is none. *)
Definition raw_url_of_transcripts (transcripts : dict) : res pyval :=
  let direct :=
    match lookup (lit "transcriptUrl") transcripts with
    | Some v => truthy v
    | None => false
    end in
  if direct then py_getitem (PDict transcripts) (lit "transcriptUrl")
  else
    match py_get (PDict transcripts) (lit "liveTranscripts") (PDict []) with
    | Raise e => Raise e
    | Ok live =>
        match py_in (lit "finishedLiveTranscriptUrl") live with
        | Raise e => Raise e
        | Ok false => Ok PNone
        | Ok true =>
            match py_getitem (PDict transcripts) (lit "liveTranscripts") with
            | Raise e => Raise e
            | Ok live' =>
                match py_getitem live' (lit "finishedLiveTranscriptUrl") with
                | Raise e => Raise e
                | Ok v => if truthy v then Ok v else Ok PNone
                end
            end
        end
    end.

(** The transcripts object names no raw URL: transcriptUrl is absent or
    false, and liveTranscripts is absent or a dictionary whose
    finishedLiveTranscriptUrl is absent or false. *)
Definition absent_or_empty (k : str) (d : dict) : bool :=
  match lookup k d with
  | Some v => negb (truthy v)
  | None => true
  end.

Definition no_raw_url (transcripts : dict) : bool :=
  absent_or_empty (lit "transcriptUrl") transcripts
  && match lookup (lit "liveTranscripts") transcripts with
     | None => true
     | Some (PDict live) => absent_or_empty (lit "finishedLiveTranscriptUrl") live
     | Some _ => false
     end.

(** Lines 265-280: the app-page fallback.  The result is the (possibly
    updated) raw URL and the text returned from inside the block, if any. *)
Definition app_url_fallback (raw : pyval) (transcript_url : str)
  : M (World Session) (pyval * option str) :=
  if negb (truthy raw) && nonempty transcript_url
     && contains APP_HOST transcript_url then
    match index_from_end (split (lit "/") transcript_url) 2 with
    | None => raise IndexError
    | Some document_id =>
        if isdigit document_id then
          let raw_transcript_url := API_DOCUMENT_URL ++ document_id in
          response <- http_get session_get raw_transcript_url api_headers [] ;;
          if (status response =? 200)%Z then
            transcript_data <- lift (resp_json response) ;;
            has <- (if truthy transcript_data
                    then lift (py_in (lit "transcript") transcript_data)
                    else ret false) ;;
            if has : bool then
              t <- lift (py_getitem transcript_data (lit "transcript")) ;;
              text <- lift (py_get t (lit "text") (PStr [])) ;;
              if truthy text then
                formatted_text <- lift (format_transcript_value text) ;;
                ret (PStr raw_transcript_url, Some formatted_text)
              else ret (PStr raw_transcript_url, None)
            else ret (PStr raw_transcript_url, None)
          else ret (PStr raw_transcript_url, None)
        else ret (raw, None)
    end
  else ret (raw, None).

(** What the app-page fallback can hand back after its request to [u]. *)
Definition fallback_outcome (w : World Session) (u : str)
    (o : res (pyval * option str)) : Prop :=
  match o with
  | Ok (raw', Some _) =>
      raw' = PStr u /\ bad_outcome (answer session_get w u api_headers []) = false
  | Ok (raw', None) => raw' = PStr u
  | Raise _ => True
  end.

(** Lines 291-310: decoding a 200 response. *)
Definition decode_response (response : Response) : M (World Session) (option str) :=
  try_except
    (transcript_data <- lift (resp_json response) ;;
     has_transcript <- lift (py_in (lit "transcript") transcript_data) ;;
     if has_transcript : bool then
       t <- lift (py_getitem transcript_data (lit "transcript")) ;;
       text <- lift (py_get t (lit "text") (PStr [])) ;;
       if truthy text then
         formatted_text <- lift (format_transcript_value text) ;;
         ret (Some formatted_text)
       else ret None
     else
       has_text <- lift (py_in (lit "text") transcript_data) ;;
       if has_text : bool then
         text <- lift (py_getitem transcript_data (lit "text")) ;;
         formatted_text <- lift (format_transcript_value text) ;;
         ret (Some formatted_text)
       else ret None)
    (fun e =>
       match e with
       | JSONDecodeError =>
           text <- lift (resp_text response) ;;
           if nonempty text then ret (Some (format_transcript_text text))
           else ret None
       | _ => raise e
       end).

(** Lines 283-314: fetching the raw URL. *)
Definition fetch_raw (raw_transcript_url : pyval) : M (World Session) (option str) :=
  if truthy raw_transcript_url then
    try_except
      (is_api <- lift (py_in API_HOST raw_transcript_url) ;;
       let h := if is_api : bool then api_headers else [] in
       response <- http_get_val session_get raw_transcript_url h ;;
       if (status response =? 200)%Z then decode_response response
       else ret None)
      (fun _ => ret None)
  else ret None.

Definition process_transcript (transcript_url : str) (transcripts : dict)
  : M (World Session) str :=
  try_except
    (raw_transcript_url <- lift (raw_url_of_transcripts transcripts) ;;
     r <- app_url_fallback raw_transcript_url transcript_url ;;
     match snd r with
     | Some formatted_text => ret formatted_text
     | None =>
         r' <- fetch_raw (fst r) ;;
         match r' with
         | Some formatted_text => ret formatted_text
         | None => ret []
         end
     end)
    (fun _ => ret []).

End WithSession.

(** The three replacements every user-supplied text goes through. *)
Definition xml_escape (s : str) : str :=
  replace (lit ">") (lit "&gt;")
    (replace (lit "<") (lit "&lt;")
       (replace (lit "&") (lit "&amp;") s)).

(** The entity that stands for one character of user text. *)
Definition escape_char (c : char) : str :=
  if N.eqb c AMP then lit "&amp;"
  else if N.eqb c LT then lit "&lt;"
  else if N.eqb c GT then lit "&gt;"
  else [c].

(** Every ampersand of [s] opens one of the three entities. *)
Fixpoint amp_opens_entity (s : str) : bool :=
  match s with
  | [] => true
  | c :: r =>
      (if N.eqb c AMP
       then starts_with (lit "amp;") r || starts_with (lit "lt;") r
            || starts_with (lit "gt;") r
       else true)
      && amp_opens_entity r
  end.

Definition INDENT12 : str := repeat SP 12.

(** The f-string of lines 376-383, given the two escaped fields. *)
Definition header_markup (company title event_date : str) : str :=
  [NL]
  ++ INDENT12 ++ lit "<para alignment=" ++ [QUOTE] ++ lit "center" ++ [QUOTE]
     ++ lit ">" ++ [NL]
  ++ INDENT12 ++ lit "<b>" ++ company ++ lit "</b><br/>" ++ [NL]
  ++ INDENT12 ++ lit "<br/>" ++ [NL]
  ++ INDENT12 ++ lit "Event: " ++ title ++ lit "<br/>" ++ [NL]
  ++ INDENT12 ++ lit "Date: " ++ event_date ++ [NL]
  ++ INDENT12 ++ lit "</para>" ++ [NL]
  ++ repeat SP 8.

(** The text [t] in style [style] is what the renderer is meant to hand
    over: the header with its two fields escaped character by character,
    or one stripped body paragraph escaped character by character. *)
Definition escaped_text (company_name event_title event_date transcript_text : str)
    (t : str) (style : StyleName) : Prop :=
  match style with
  | CustomHeader =>
      t = header_markup (flat_map escape_char company_name)
                        (flat_map escape_char event_title) event_date
  | CustomText =>
      In t (List.map (fun para => flat_map escape_char (strip para))
                     (split [NL; NL] transcript_text))
  end.

Definition escaped_flowable (company_name event_title event_date transcript_text : str)
    (f : Flowable) : Prop :=
  match f with
  | Paragraph t style =>
      escaped_text company_name event_title event_date transcript_text t style
  | Spacer _ _ => True
  end.

Definition escaped_call (company_name event_title event_date transcript_text : str)
    (c : EngineCall) : Prop :=
  match c with
  | NewParagraph t style =>
      escaped_text company_name event_title event_date transcript_text t style
  | Build story =>
      Forall (escaped_flowable company_name event_title event_date transcript_text)
             story
  | _ => True
  end.

Section WithEngine.

(** Whether [Paragraph(text, style)] raises while parsing its markup. *)
Variable paragraph_error : str -> StyleName -> option exn.
(** [doc.build(story)] followed by [buffer.getvalue()]. *)
Variable doc_build : list Flowable -> res bytes.

Definition engine_call (c : EngineCall) : M EngineLog unit :=
  fun w => (w ++ [c], Ok tt).

Definition new_paragraph (text : str) (style : StyleName) : M EngineLog Flowable :=
  fun w =>
    (w ++ [NewParagraph text style],
     match paragraph_error text style with
     | None => Ok (Paragraph text style)
     | Some e => Raise e
     end).

Definition new_spacer (width height : Z) : M EngineLog Flowable :=
  fun w => (w ++ [NewSpacer width height], Ok (Spacer width height)).

Definition build (story : list Flowable) : M EngineLog bytes :=
  fun w => (w ++ [Build story], doc_build story).

(** The loop of lines 389-398 over the paragraphs still to be added. *)
Fixpoint add_paragraphs (paragraphs : list str) (story : list Flowable)
  : M EngineLog (list Flowable) :=
  match paragraphs with
  | [] => ret story
  | para :: rest =>
      if nonempty (strip para) then
        let clean_para := xml_escape (strip para) in
        story' <- try_except
                    (p <- new_paragraph clean_para CustomText ;;
                     sp <- new_spacer 1 6 ;;
                     ret (story ++ [p; sp]))
                    (fun _ => ret story) ;;
        add_paragraphs rest story'
      else add_paragraphs rest story
  end.

Definition create_pdf (company_name event_title event_date transcript_text : str)
  : M EngineLog bytes :=
  if negb (nonempty transcript_text) then ret []
  else
    doc <- engine_call (NewSimpleDocTemplate 72 72 72 72) ;;
    styles <- engine_call GetSampleStyleSheet ;;
    header_style <- engine_call (NewParagraphStyle CustomHeader 14) ;;
    text_style <- engine_call (NewParagraphStyle CustomText 10) ;;
    let header_text :=
      header_markup (xml_escape company_name) (xml_escape event_title) event_date in
    header <- new_paragraph header_text CustomHeader ;;
    gap <- new_spacer 1 30 ;;
    story <- add_paragraphs (split [NL; NL] transcript_text) [header; gap] ;;
    try_except (build story) (fun _ => ret []).

End WithEngine.

End TranscriptProcessor.

(** ** Shapes used to state further properties *)

(** A text that [format_transcript_text] produced. *)
Definition is_formatted (f : str) : Prop :=
  exists t, f = TranscriptProcessor.format_transcript_text t.

Definition option_formatted (o : option str) : Prop :=
  match o with
  | Some f => is_formatted f
  | None => True
  end.

(** Every value [m] returns satisfies [P]. *)
Definition returns {W A} (P : A -> Prop) (m : M W A) : Prop :=
  forall w w' a, m w = (w', Ok a) -> P a.

(** The document id that lines 265-268 take from the page URL, if any. *)
Definition derived_document_id (isdigit_char : char -> bool) (transcript_url : str)
  : option str :=
  if nonempty transcript_url
     && contains TranscriptProcessor.APP_HOST transcript_url then
    match index_from_end (split (lit "/") transcript_url) 2 with
    | Some document_id =>
        if TranscriptProcessor.isdigit isdigit_char document_id
        then Some document_id else None
    | None => None
    end
  else None.



(** Whitespace of the output: a space or a newline. *)
Definition space_newline_or_text (c : char) : bool :=
  negb (isspace c) || N.eqb c SP || N.eqb c NL.

(** Two whitespace neighbours of the output are two newlines. *)
Definition tidy_neighbours (a b : char) : bool :=
  negb (isspace a && isspace b) || (N.eqb a NL && N.eqb b NL).

(** What one body paragraph contributes to the story: nothing when it is
    blank or when [Paragraph] rejects its markup, else the paragraph and
    the spacer after it. *)
Definition body_flowables (paragraph_error : str -> StyleName -> option exn)
    (para : str) : list Flowable :=
  if nonempty (strip para) then
    match paragraph_error (TranscriptProcessor.xml_escape (strip para)) CustomText with
    | None => [Paragraph (TranscriptProcessor.xml_escape (strip para)) CustomText;
               Spacer 1 6]
    | Some _ => []
    end
  else [].

(** The header text of lines 376-383. *)
Definition header_text_of (company_name event_title event_date : str) : str :=
  TranscriptProcessor.header_markup (TranscriptProcessor.xml_escape company_name)
    (TranscriptProcessor.xml_escape event_title) event_date.

(** The engine calls made before the header paragraph. *)
Definition SETUP_CALLS : list EngineCall :=
  [NewSimpleDocTemplate 72 72 72 72; GetSampleStyleSheet;
   NewParagraphStyle CustomHeader 14; NewParagraphStyle CustomText 10].

(** None of the three markup characters. *)
Definition plain_char (c : char) : bool :=
  negb (N.eqb c AMP) && negb (N.eqb c LT) && negb (N.eqb c GT).

Definition UPPER_T : char := 84%N.     (* 'T' *)
Definition QUESTION : char := 63%N.    (* '?' *)
Definition HYPHEN : char := 45%N.      (* '-' *)

Definition res_bind {A B} (r : res A) (k : A -> res B) : res B :=
  match r with
  | Ok a => k a
  | Raise e => Raise e
  end.

(** ** posixpath.dirname *)

Module posixpath.

Definition rstrip_slash (s : str) : str :=
  rev (drop_while (N.eqb SLASH) (rev s)).

Definition dirname (p : str) : str :=
  let i := (rfind SLASH p + 1)%Z in
  let head := firstn (Z.to_nat i) p in
  if nonempty head && negb (str_eqb head (repeat SLASH (List.length head)))
  then rstrip_slash head
  else head.

End posixpath.

(** ** The Supabase storage handler's operations on its client *)

(** The calls the handler makes to the storage client and to the file
    system. *)
Inductive StorageCall : Type :=
| ListBuckets
| CreateBucket (name : str) (public : bool)
| Upload (bucket path : str) (file : bytes) (content_type : str)
| GetPublicUrl (bucket path : str)
| Download (bucket path : str)
| Makedirs (dir : str)
| WriteFile (path : str) (data : bytes).

Module SupabaseStorage.
Section WithClient.

(** The state of the storage service and of the local file system, and
    what each operation does to it. *)
Variable Outside : Type.
Variable list_buckets : Outside -> Outside * res (list pyval).
Variable create_bucket : Outside -> str -> bool -> Outside * res unit.
Variable upload : Outside -> str -> str -> bytes -> str -> Outside * res unit.
Variable public_url : Outside -> str -> str -> Outside * res str.
Variable download : Outside -> str -> str -> Outside * res bytes.
Variable makedirs : Outside -> str -> Outside * res unit.
Variable write_file : Outside -> str -> bytes -> Outside * res unit.

(** Whether [self.client] is a client (and not None). *)
Variable has_client : bool.

Record Env : Type := mkEnv {
  outside : Outside;
  calls : list StorageCall
}.

Definition bucket_name : str := lit "alpinedatalake".

(** Make one call: note it and run it. *)
Definition call {A : Type} (c : StorageCall) (op : Outside -> Outside * res A)
  : M Env A :=
  fun w =>
    let (o', r) := op (outside w) in
    (mkEnv o' (calls w ++ [c]), r).

(** [[bucket["name"] for bucket in buckets]] *)
Fixpoint bucket_names (buckets : list pyval) : res (list pyval) :=
  match buckets with
  | [] => Ok []
  | bucket :: rest =>
      res_bind (py_getitem bucket (lit "name")) (fun name =>
      res_bind (bucket_names rest) (fun names => Ok (name :: names)))
  end.

Definition _ensure_bucket_exists : M Env unit :=
  if has_client then
    try_except
      (buckets <- call ListBuckets list_buckets ;;
       names <- lift (bucket_names buckets) ;;
       if negb (existsb (is_str bucket_name) names) then
         created <- call (CreateBucket bucket_name true)
                         (fun o => create_bucket o bucket_name true) ;;
         ret tt
       else ret tt)
      (fun _ => ret tt)
  else ret tt.

(** [__init__] after the client was obtained. *)
Definition init : M Env unit :=
  try_except _ensure_bucket_exists (fun _ => ret tt).

Definition upload_file (file_data : bytes) (filename content_type : str)
  : M Env bool :=
  if negb has_client then ret false
  else
    try_except
      (response <- call (Upload bucket_name filename file_data content_type)
                        (fun o => upload o bucket_name filename file_data content_type) ;;
       ret true)
      (fun _ => ret false).

Definition get_public_url (filename : str) : M Env str :=
  if negb has_client then ret []
  else
    try_except
      (url <- call (GetPublicUrl bucket_name filename)
                   (fun o => public_url o bucket_name filename) ;;
       ret url)
      (fun _ => ret []).

Definition download_file (filename local_path : str) : M Env bool :=
  if negb has_client then ret false
  else
    try_except
      (made <- call (Makedirs (posixpath.dirname local_path))
                    (fun o => makedirs o (posixpath.dirname local_path)) ;;
       response <- call (Download bucket_name filename)
                        (fun o => download o bucket_name filename) ;;
       written <- call (WriteFile local_path response)
                       (fun o => write_file o local_path response) ;;
       ret true)
      (fun _ => ret false).

End WithClient.
End SupabaseStorage.

(** ** Example sessions *)



(** A stateless server that knows one document, [good], and answers every
    other URL with status 404. *)
Definition routed_get (good text : str) (s : unit) (url : str) (h : headers)
    (params : dict) : unit * res Response :=
  (tt, if str_eqb url good
       then json_response 200 (PDict [(lit "text", PStr text)])
       else json_response 404 PNone).

Definition URL_A : str := lit "https://cdn.example.com/a.json".
Definition URL_B : str := lit "https://cdn.example.com/b.json".

(** Both raw URLs are named; only the second one can be fetched. *)
Definition both_named_run : World unit * res str :=
  TranscriptProcessor.process_transcript (routed_get URL_B (lit "Hello"))
    (lit "secret") ascii_isdigit_char []
    [(lit "transcriptUrl", PStr URL_A);
     (lit "liveTranscripts", PDict [(lit "finishedLiveTranscriptUrl", PStr URL_B)])]
    (mkWorld tt []).

(** Only the second raw URL is named, on the same server. *)
Definition second_named_run : World unit * res str :=
  TranscriptProcessor.process_transcript (routed_get URL_B (lit "Hello"))
    (lit "secret") ascii_isdigit_char []
    [(lit "liveTranscripts", PDict [(lit "finishedLiveTranscriptUrl", PStr URL_B)])]
    (mkWorld tt []).

(** * Properties *)

Import TranscriptProcessor.

(** ** Storage keys *)

Lemma starts_with_app_l (p a b : str) :
  (List.length p <= List.length a)%nat ->
  starts_with p (a ++ b) = starts_with p a.
Proof.
  revert a; induction p as [|x p IH]; intros [|y a] Hlen; simpl in *;
    try reflexivity; try lia.
  rewrite IH by lia. reflexivity.
Qed.

(** A suffix test only looks at the end of the string. *)
Lemma ends_with_app_r (p a b : str) :
  (List.length p <= List.length b)%nat ->
  ends_with p (a ++ b) = ends_with p b.
Proof.
  intros Hlen. unfold ends_with. rewrite rev_app_distr.
  apply starts_with_app_l. rewrite !length_rev. exact Hlen.
Qed.

(** The flat-key backend forces the pdf extension for transcripts, whatever
    the original file was called. *)
Lemma s3_transcript_key_is_pdf (lower : str -> str)
    (company_name event_date event_title original_filename : str) :
  ends_with (lit "_transcript.pdf")
    (S3Handler.create_filename lower company_name event_date event_title
       (lit "transcript") original_filename) = true.
Proof.
  unfold S3Handler.create_filename.
  replace (str_eqb (lit "transcript") (lit "transcript")) with true
    by (vm_compute; reflexivity).
  rewrite !app_assoc.
  rewrite <- (app_assoc _ (lit "_") (lit "transcript")).
  rewrite <- (app_assoc _ _ (lit ".")).
  rewrite <- (app_assoc _ _ (lit "pdf")).
  rewrite ends_with_app_r by (vm_compute; lia).
  vm_compute. reflexivity.
Qed.

(** C1 (the path-structured backend does not force the extension).
    [SupabaseStorageHandler.create_filename] keeps the extension of the
    original file name for every document type: for a transcript whose
    original file is foo.docx the key ends in _transcript.docx and not in
    .pdf, whatever the company, the date and the title are. *)
Theorem supabase_transcript_key_keeps_docx (lower : str -> str)
    (company_name event_date event_title : str) :
  let key := SupabaseStorageHandler.create_filename lower company_name
               event_date event_title (lit "transcript") (lit "foo.docx") in
  ends_with (lit "_transcript.docx") key = true
  /\ ends_with (lit ".pdf") key = false.
Proof.
  cbv zeta. unfold SupabaseStorageHandler.create_filename.
  replace (snd (os_path.splitext (lit "foo.docx"))) with (lit ".docx")
    by (vm_compute; reflexivity).
  replace (negb (nonempty (lit ".docx"))) with false by reflexivity.
  cbv iota.
  rewrite !app_assoc.
  rewrite <- (app_assoc _ (lit "_") (lit "transcript")).
  rewrite <- (app_assoc _ _ (lit ".docx")).
  split.
  - rewrite ends_with_app_r by (vm_compute; lia). vm_compute. reflexivity.
  - rewrite ends_with_app_r by (vm_compute; lia). vm_compute. reflexivity.
Qed.

Example supabase_key_foo_docx :
  SupabaseStorageHandler.create_filename ascii_lower (lit "Acme Corp")
    (lit "2024-05-01") (lit "Q1 2024") (lit "transcript") (lit "foo.docx")
  = lit "acme_corp/transcript/acme_corp_20240501_transcript.docx".
Proof. vm_compute. reflexivity. Qed.

Example splitext_examples :
  os_path.splitext (lit "a/b.c/report") = (lit "a/b.c/report", [])
  /\ os_path.splitext (lit ".bashrc") = (lit ".bashrc", [])
  /\ os_path.splitext (lit "dir/..x.tar.gz") = (lit "dir/..x.tar", lit ".gz").
Proof. vm_compute. auto. Qed.

(** ** The text formatter on concrete inputs *)

(** C9.  [format_transcript_text("Hello. World.")] is the two sentences
    separated by exactly two newline characters, the final period kept. *)
Theorem format_hello_world :
  format_transcript_text (lit "Hello. World.")
  = lit "Hello." ++ [NL; NL] ++ lit "World.".
Proof. vm_compute. reflexivity. Qed.

Example format_escaped_newline :
  format_transcript_text (lit "Good  morning." ++ ESCAPED_NL ++ lit "Thanks")
  = lit "Good morning." ++ [NL; NL] ++ lit "Thanks.".
Proof. vm_compute. reflexivity. Qed.

(** ** The renderer on empty input *)

(** C6.  With an empty [transcript_text], [create_pdf] returns the empty
    byte sequence and makes no call to the layout engine: the log of engine
    calls is left as it was (no document template, no paragraph, no build),
    for every company name, event title, event date and engine. *)
Theorem create_pdf_empty_text
    (paragraph_error : str -> StyleName -> option exn)
    (doc_build : list Flowable -> res bytes)
    (company_name event_title event_date : str) (log : EngineLog) :
  create_pdf paragraph_error doc_build company_name event_title event_date [] log
  = (log, Ok []).
Proof. reflexivity. Qed.

(** ** Transcript resolution *)

Lemma quiet_ret {W A} (a : A) : quiet (ret (W:=W) a).
Proof. intros w; eexists; reflexivity. Qed.

Lemma quiet_raise {W A} (e : exn) : quiet (raise (W:=W) (A:=A) e).
Proof. intros w; eexists; reflexivity. Qed.

Lemma quiet_lift {W A} (r : res A) : quiet (lift (W:=W) r).
Proof. intros w; eexists; reflexivity. Qed.

Lemma quiet_bind {W A B} (m : M W A) (k : A -> M W B) :
  quiet m -> (forall a, quiet (k a)) -> quiet (bind m k).
Proof.
  intros Hm Hk w. unfold bind. destruct (Hm w) as [o ->].
  destruct o as [a|e]; [apply Hk | eexists; reflexivity].
Qed.

Lemma quiet_try {W A} (m : M W A) (h : exn -> M W A) :
  quiet m -> (forall e, quiet (h e)) -> quiet (try_except m h).
Proof.
  intros Hm Hh w. unfold try_except. destruct (Hm w) as [o ->].
  destruct o as [a|e]; [eexists; reflexivity | apply Hh].
Qed.

Ltac quiet_steps :=
  repeat first
    [ apply quiet_ret | apply quiet_raise | apply quiet_lift
    | apply quiet_bind; [|intro] | apply quiet_try; [|intro]
    | match goal with
      | |- quiet (if ?b then _ else _) => destruct b
      | |- quiet (match ?x with _ => _ end) => destruct x
      end ].

Lemma api_document_url_on_api_host (document_id : str) :
  contains API_HOST (API_DOCUMENT_URL ++ document_id) = true.
Proof. vm_compute. reflexivity. Qed.

Section ResolutionFacts.

Variable Session : Type.
Variable session_get : Session -> str -> headers -> dict -> Session * res Response.
Variable QUARTR_API_KEY : str.
Variable isdigit_char : char -> bool.

Local Notation "'api_hdrs'" := (api_headers QUARTR_API_KEY).
Local Notation "'hdrs_for'" := (headers_for QUARTR_API_KEY).
Local Notation "'run_fetch_raw'" := (fetch_raw session_get QUARTR_API_KEY).
Local Notation "'run_fallback'" := (app_url_fallback session_get QUARTR_API_KEY isdigit_char).
Local Notation "'run_process'" := (process_transcript session_get QUARTR_API_KEY isdigit_char).
Local Notation "'get_to'" := (after_get session_get).
Local Notation "'ans'" := (answer session_get).
Local Notation "'fb_outcome'" := (fallback_outcome session_get QUARTR_API_KEY).

Lemma http_get_run (w : World Session) (u : str) (h : headers) (params : dict) :
  http_get session_get u h params w = (get_to w u h params, ans w u h params).
Proof.
  unfold http_get, after_get, answer.
  destruct (session_get (sess w) u h params); reflexivity.
Qed.

Lemma fetches_after_get (w : World Session) (u : str) (h : headers) (params : dict) :
  fetches (get_to w u h params)
  = fetches w ++ [mkFetch u h params (ans w u h params)].
Proof. reflexivity. Qed.

(** Decoding a response makes no request. *)
Lemma decode_response_quiet (r : Response) :
  quiet (decode_response (Session:=Session) r).
Proof. unfold decode_response. quiet_steps. Qed.

(** On a non-empty string the general fetch path makes exactly one request,
    to that URL, with the headers chosen from the URL; a bad answer yields
    no text. *)
Lemma fetch_raw_string (u : str) (w : World Session) :
  nonempty u = true ->
  exists f,
    run_fetch_raw (PStr u) w = (get_to w u (hdrs_for u) [], Ok f)
    /\ (bad_outcome (ans w u (hdrs_for u) []) = true -> f = None).
Proof.
  intros Hne.
  unfold fetch_raw, try_except, bind, lift. cbn [truthy py_in http_get_val].
  rewrite Hne. fold (hdrs_for u). rewrite http_get_run.
  destruct (ans w u (hdrs_for u) []) as [r|e]; cbn [bad_outcome].
  - destruct (status r =? 200)%Z.
    + destruct (decode_response_quiet r (get_to w u (hdrs_for u) [])) as [o ->].
      destruct o as [f|e]; eexists; (split; [reflexivity|]); cbn; discriminate.
    + exists None. auto.
  - exists None. auto.
Qed.

(** On any value the general fetch path makes at most one request. *)
Lemma fetch_raw_cases (raw : pyval) (w : World Session) :
  run_fetch_raw raw w = (w, Ok None)
  \/ exists u f, raw = PStr u
       /\ run_fetch_raw raw w = (get_to w u (hdrs_for u) [], Ok f)
       /\ (bad_outcome (ans w u (hdrs_for u) []) = true -> f = None).
Proof.
  destruct raw as [|b|z|x|u|l|d]; try (left; reflexivity).
  - left. unfold fetch_raw. destruct (truthy (PBool b)); reflexivity.
  - left. unfold fetch_raw. destruct (truthy (PInt z)); reflexivity.
  - left. unfold fetch_raw. destruct (truthy (PFloat x)); reflexivity.
  - destruct (nonempty u) eqn:Hne; [|destruct u; [left; reflexivity | discriminate]].
    right. destruct (fetch_raw_string u w Hne) as (f & Hrun & Hbad).
    exists u, f. auto.
  - left. unfold fetch_raw. destruct (truthy (PList l)); reflexivity.
  - left. unfold fetch_raw. destruct (truthy (PDict d)); [|reflexivity].
    unfold try_except, bind, lift. cbn. reflexivity.
Qed.

(** When no raw URL was found and the page URL is an app URL whose
    second-to-last segment is all digits, the fallback requests the derived
    API document with the API key. *)
Lemma app_url_fallback_fetches (raw : pyval) (transcript_url document_id : str)
    (w : World Session) :
  truthy raw = false ->
  nonempty transcript_url = true ->
  contains APP_HOST transcript_url = true ->
  index_from_end (split (lit "/") transcript_url) 2 = Some document_id ->
  isdigit isdigit_char document_id = true ->
  exists o,
    run_fallback raw transcript_url w
    = (get_to w (API_DOCUMENT_URL ++ document_id) api_hdrs [], o)
    /\ fb_outcome w (API_DOCUMENT_URL ++ document_id) o.
Proof.
  intros Hraw Hne Happ Hidx Hdig.
  unfold app_url_fallback. rewrite Hraw, Hne, Happ, Hidx, Hdig. cbn [negb andb].
  unfold bind at 1. rewrite http_get_run. unfold fallback_outcome.
  set (u := API_DOCUMENT_URL ++ document_id).
  destruct (ans w u api_hdrs []) as [r|e] eqn:Ha; [|eexists; split; [reflexivity|exact I]].
  cbn [bad_outcome].
  destruct (status r =? 200)%Z; [|eexists; split; [reflexivity|reflexivity]].
  unfold bind, lift, ret.
  destruct (resp_json r) as [data|e]; [|eexists; split; [reflexivity|exact I]].
  destruct (truthy data); [|eexists; split; [reflexivity|reflexivity]].
  destruct (py_in (lit "transcript") data) as [[|]|e];
    [| eexists; split; [reflexivity|reflexivity]
     | eexists; split; [reflexivity|exact I]].
  destruct (py_getitem data (lit "transcript")) as [t|e];
    [|eexists; split; [reflexivity|exact I]].
  destruct (py_get t (lit "text") (PStr [])) as [text|e];
    [|eexists; split; [reflexivity|exact I]].
  destruct (truthy text); [|eexists; split; [reflexivity|reflexivity]].
  destruct (format_transcript_value text) as [f|e];
    eexists; (split; [reflexivity|]); cbn; auto.
Qed.

Lemma app_url_fallback_cases (raw : pyval) (transcript_url : str) (w : World Session) :
  run_fallback raw transcript_url w = (w, Ok (raw, None))
  \/ run_fallback raw transcript_url w = (w, Raise IndexError)
  \/ exists document_id o,
       run_fallback raw transcript_url w
       = (get_to w (API_DOCUMENT_URL ++ document_id) api_hdrs [], o)
       /\ fb_outcome w (API_DOCUMENT_URL ++ document_id) o.
Proof.
  destruct (truthy raw) eqn:Hraw.
  { left. unfold app_url_fallback. rewrite Hraw. reflexivity. }
  destruct (nonempty transcript_url) eqn:Hne.
  2:{ left. unfold app_url_fallback. rewrite Hraw, Hne. reflexivity. }
  destruct (contains APP_HOST transcript_url) eqn:Happ.
  2:{ left. unfold app_url_fallback. rewrite Hraw, Hne, Happ. reflexivity. }
  destruct (index_from_end (split (lit "/") transcript_url) 2) as [id|] eqn:Hidx.
  2:{ right; left. unfold app_url_fallback. rewrite Hraw, Hne, Happ, Hidx. reflexivity. }
  destruct (isdigit isdigit_char id) eqn:Hdig.
  2:{ left. unfold app_url_fallback. rewrite Hraw, Hne, Happ, Hidx, Hdig. reflexivity. }
  right; right. exists id.
  apply app_url_fallback_fetches; assumption.
Qed.

Lemma headers_for_api_document (document_id : str) :
  hdrs_for (API_DOCUMENT_URL ++ document_id) = api_hdrs.
Proof.
  unfold headers_for. rewrite api_document_url_on_api_host. reflexivity.
Qed.

(** One run of [process_transcript]: it returns normally, it made the
    requests [new] (each with the headers chosen from its URL), and when
    the last of them was not answered with status 200 the result is
    empty. *)
Lemma process_transcript_run (transcript_url : str) (transcripts : dict)
    (w : World Session) :
  exists w' r new,
    run_process transcript_url transcripts w = (w', Ok r)
    /\ fetches w' = fetches w ++ new
    /\ Forall (fun f => fetch_headers f = hdrs_for (fetch_url f)) new
    /\ (last_bad new = true -> r = []).
Proof.
  unfold process_transcript, try_except. unfold bind at 1. unfold lift at 1.
  destruct (raw_url_of_transcripts transcripts) as [raw|e].
  2:{ exists w, [], []. rewrite app_nil_r. auto. }
  unfold bind at 1.
  destruct (app_url_fallback_cases raw transcript_url w)
    as [-> | [-> | (id & o & -> & Ho)]].
  - cbn [snd fst]. unfold bind.
    destruct (fetch_raw_cases raw w) as [-> | (u & f & -> & -> & Hf)].
    + exists w, [], []. rewrite app_nil_r. auto.
    + destruct f as [f|].
      * exists (get_to w u (hdrs_for u) []), f, [mkFetch u (hdrs_for u) [] (ans w u (hdrs_for u) [])].
        repeat split; auto.
        unfold last_bad; cbn [rev app fetch_outcome]. intros Hb.
        specialize (Hf Hb). discriminate.
      * exists (get_to w u (hdrs_for u) []), [], [mkFetch u (hdrs_for u) [] (ans w u (hdrs_for u) [])].
        repeat split; auto.
  - exists w, [], []. rewrite app_nil_r. auto.
  - set (u := API_DOCUMENT_URL ++ id) in *.
    set (w1 := get_to w u api_hdrs []) in *.
    set (f1 := mkFetch u api_hdrs [] (ans w u api_hdrs [])).
    assert (Hh1 : fetch_headers f1 = hdrs_for (fetch_url f1)).
    { unfold f1. cbn [fetch_headers fetch_url]. unfold u.
      rewrite headers_for_api_document. reflexivity. }
    destruct o as [[raw' [f|]]|e]; cbn [snd fst]; unfold fallback_outcome in Ho.
    + exists w1, f, [f1]. repeat split; auto.
      unfold last_bad, f1; cbn [rev app fetch_outcome].
      destruct Ho as [_ ->]. discriminate.
    + subst raw'. unfold bind.
      destruct (fetch_raw_cases (PStr u) w1) as [-> | (u' & f & Hu & -> & Hf)].
      * exists w1, [], [f1]. repeat split; auto.
      * injection Hu as <-.
        set (f2 := mkFetch u (hdrs_for u) [] (ans w1 u (hdrs_for u) [])).
        assert (Hw2 : fetches (get_to w1 u (hdrs_for u) []) = fetches w ++ [f1; f2]).
        { rewrite fetches_after_get. unfold w1. rewrite fetches_after_get.
          rewrite <- app_assoc. reflexivity. }
        destruct f as [f|].
        -- exists (get_to w1 u (hdrs_for u) []), f, [f1; f2]. repeat split; auto.
           unfold last_bad, f1, f2; cbn [rev app fetch_outcome]. intros Hb.
           specialize (Hf Hb). discriminate.
        -- exists (get_to w1 u (hdrs_for u) []), [], [f1; f2]. repeat split; auto.
    + exists w1, [], [f1]. repeat split; auto.
Qed.

(** C8.  Every request [process_transcript] makes carries the X-Api-Key
    header exactly when its URL contains api.quartr.com; the requests to any
    other URL carry no header at all. *)
Theorem api_key_header_iff_api_host (transcript_url : str) (transcripts : dict)
    (w : World Session) :
  exists new : list Fetch,
    fetches (fst (run_process transcript_url transcripts w)) = fetches w ++ new
    /\ Forall (fun f =>
                 fetch_headers f
                 = if contains (lit "api.quartr.com") (fetch_url f)
                   then [(lit "X-Api-Key", QUARTR_API_KEY)] else [])
              new.
Proof.
  destruct (process_transcript_run transcript_url transcripts w)
    as (w' & r & new & -> & Hlog & Hh & _).
  exists new. split; [exact Hlog | exact Hh].
Qed.

(** When the transcripts object names no raw URL, the raw URL computed by
    lines 259-262 is a false value. *)
Lemma no_raw_url_selected (transcripts : dict) :
  no_raw_url transcripts = true ->
  exists raw, raw_url_of_transcripts transcripts = Ok raw /\ truthy raw = false.
Proof.
  unfold no_raw_url, absent_or_empty, raw_url_of_transcripts. intros H.
  apply andb_true_iff in H as [H1 H2].
  assert (Hd : match lookup (lit "transcriptUrl") transcripts with
               | Some v => truthy v | None => false end = false).
  { destruct (lookup (lit "transcriptUrl") transcripts); [|reflexivity].
    apply negb_true_iff in H1. exact H1. }
  rewrite Hd. cbn [py_get py_getitem].
  destruct (lookup (lit "liveTranscripts") transcripts) as [live|].
  - destruct live as [| | | | | |live]; try discriminate.
    cbn [py_in py_getitem].
    destruct (lookup (lit "finishedLiveTranscriptUrl") live) as [v|].
    + apply negb_true_iff in H2. rewrite H2. exists PNone. auto.
    + exists PNone. auto.
  - exists PNone. cbn. auto.
Qed.

Lemma contains_app_host_nonempty (s : str) :
  contains APP_HOST s = true -> nonempty s = true.
Proof. destruct s; [vm_compute; discriminate | reflexivity]. Qed.

(** The first source: a non-empty transcriptUrl is the raw URL. *)
Lemma raw_url_direct (transcripts : dict) (v : pyval) :
  lookup (lit "transcriptUrl") transcripts = Some v -> truthy v = true ->
  raw_url_of_transcripts transcripts = Ok v.
Proof.
  intros Hl Ht. unfold raw_url_of_transcripts. cbn [py_getitem].
  rewrite Hl, Ht. reflexivity.
Qed.

(** The second source: without a transcriptUrl, a non-empty
    finishedLiveTranscriptUrl under liveTranscripts is the raw URL. *)
Lemma raw_url_finished_live (transcripts live : dict) (v : pyval) :
  absent_or_empty (lit "transcriptUrl") transcripts = true ->
  lookup (lit "liveTranscripts") transcripts = Some (PDict live) ->
  lookup (lit "finishedLiveTranscriptUrl") live = Some v -> truthy v = true ->
  raw_url_of_transcripts transcripts = Ok v.
Proof.
  unfold absent_or_empty, raw_url_of_transcripts. intros H1 Hl Hf Ht.
  assert (Hd : match lookup (lit "transcriptUrl") transcripts with
               | Some x => truthy x | None => false end = false).
  { destruct (lookup (lit "transcriptUrl") transcripts); [|reflexivity].
    apply negb_true_iff in H1. exact H1. }
  rewrite Hd. cbn [py_get py_getitem py_in]. rewrite Hl. cbn [py_in py_getitem].
  rewrite Hf, Ht. reflexivity.
Qed.

(** When the transcripts object names a raw URL, that URL is requested,
    once, and nothing else is: neither a lower source nor the page URL is
    tried, whatever the answer; and when the answer is not a response with
    status 200, the result is the empty string. *)
Lemma named_raw_url_is_the_only_request (transcript_url u : str)
    (transcripts : dict) (w : World Session) :
  raw_url_of_transcripts transcripts = Ok (PStr u) -> nonempty u = true ->
  exists f,
    run_process transcript_url transcripts w
    = (get_to w u (hdrs_for u) [], Ok f)
    /\ (bad_outcome (ans w u (hdrs_for u) []) = true -> f = []).
Proof.
  intros Hraw Hne.
  unfold process_transcript, try_except. unfold bind at 1. unfold lift at 1.
  rewrite Hraw. unfold bind at 1. unfold app_url_fallback.
  cbn [truthy]. rewrite Hne. cbn [negb andb]. unfold ret at 1. cbn [snd fst].
  unfold bind. destruct (fetch_raw_string u w Hne) as (f & -> & Hbad).
  destruct f as [f|].
  - exists f. split; [reflexivity|]. intros Hb. specialize (Hbad Hb). discriminate.
  - exists []. split; [reflexivity|]. reflexivity.
Qed.

(** The third source: when the transcripts object names no raw URL and the
    page URL is an app.quartr.com URL whose second-to-last segment is all
    digits, the first request made is for the derived API document. *)
Lemma third_source_requests_api_document
    (transcript_url document_id : str) (transcripts : dict) (w : World Session) :
  no_raw_url transcripts = true ->
  contains APP_HOST transcript_url = true ->
  index_from_end (split (lit "/") transcript_url) 2 = Some document_id ->
  isdigit isdigit_char document_id = true ->
  exists o rest,
    fetches (fst (run_process transcript_url transcripts w))
    = fetches w
        ++ mkFetch (API_DOCUMENT_URL ++ document_id) api_hdrs [] o :: rest.
Proof.
  intros Hno Happ Hidx Hdig.
  destruct (no_raw_url_selected transcripts Hno) as (raw & Hraw & Hfalse).
  destruct (app_url_fallback_fetches raw transcript_url w Hfalse
              (contains_app_host_nonempty _ Happ) Happ Hidx Hdig) as (o & Hrun & Ho).
  set (u := API_DOCUMENT_URL ++ document_id) in *.
  exists (ans w u api_hdrs []).
  unfold process_transcript, try_except. unfold bind at 1. unfold lift at 1.
  rewrite Hraw. unfold bind at 1. rewrite Hrun.
  destruct o as [[raw' [f|]]|e]; cbn [snd fst].
  - exists []. reflexivity.
  - unfold bind.
    destruct (fetch_raw_cases raw' (get_to w u api_hdrs []))
      as [-> | (u' & f & _ & -> & _)].
    + exists []. reflexivity.
    + eexists. destruct f; unfold ret; cbn [fst]; rewrite !fetches_after_get;
        rewrite <- app_assoc; reflexivity.
  - exists []. reflexivity.
Qed.





(** C3 (as the code has it).  [process_transcript] chooses its source by
    what the input names, in strict priority order, and requests only the
    chosen one: a non-empty transcriptUrl is requested once and nothing
    else is; without it, a non-empty finishedLiveTranscriptUrl under a
    liveTranscripts object is requested once and nothing else is; in both
    cases the call returns normally, and when the answer to that one
    request is an exception or a response whose status is not 200, the
    result is the empty string (no lower source is tried).  And when the
    transcripts object names no raw URL and the page URL is an
    app.quartr.com URL whose second-to-last segment is all digits, the
    first request is for the derived API document, with the API key. *)
Theorem source_priority (transcript_url : str) (transcripts : dict)
    (w : World Session) :
  (forall u,
      lookup (lit "transcriptUrl") transcripts = Some (PStr u) ->
      nonempty u = true ->
      exists f, run_process transcript_url transcripts w
                = (get_to w u (hdrs_for u) [], Ok f)
                /\ (bad_outcome (ans w u (hdrs_for u) []) = true -> f = []))
  /\ (forall live u,
        absent_or_empty (lit "transcriptUrl") transcripts = true ->
        lookup (lit "liveTranscripts") transcripts = Some (PDict live) ->
        lookup (lit "finishedLiveTranscriptUrl") live = Some (PStr u) ->
        nonempty u = true ->
        exists f, run_process transcript_url transcripts w
                  = (get_to w u (hdrs_for u) [], Ok f)
                  /\ (bad_outcome (ans w u (hdrs_for u) []) = true -> f = []))
  /\ (forall document_id,
        no_raw_url transcripts = true ->
        contains (lit "app.quartr.com") transcript_url = true ->
        index_from_end (split (lit "/") transcript_url) 2 = Some document_id ->
        isdigit isdigit_char document_id = true ->
        exists o rest,
          fetches (fst (run_process transcript_url transcripts w))
          = fetches w
              ++ mkFetch (lit "https://api.quartr.com/public/v1/transcripts/document/"
                            ++ document_id)
                         [(lit "X-Api-Key", QUARTR_API_KEY)] [] o :: rest).
Proof.
  split; [|split].
  - intros u Hl Hne. apply named_raw_url_is_the_only_request; [|exact Hne].
    apply raw_url_direct; assumption.
  - intros live u Ha Hl Hf Hne.
    apply named_raw_url_is_the_only_request; [|exact Hne].
    eapply raw_url_finished_live; eassumption.
  - intros document_id. apply third_source_requests_api_document.
Qed.

(** A null liveTranscripts entry stops the resolution.  With transcripts =
    {liveTranscripts: None} and an app.quartr.com page URL whose
    second-to-last segment is 12345, [process_transcript] returns the empty
    string without making any request: the membership test on None raises
    TypeError, which the outer handler turns into the empty result. *)
Lemma null_live_transcripts_stops_resolution (w : World Session) :
  run_process (lit "https://app.quartr.com/events/12345/transcript")
    [(lit "liveTranscripts", PNone)] w
  = (w, Ok []).
Proof. reflexivity. Qed.

End ResolutionFacts.


Lemma source_priority_witness :
  (exists o rest,
     fetches (fst (process_transcript scripted_get (lit "secret") ascii_isdigit_char
                     (lit "https://app.quartr.com/events/12345/transcript") []
                     (mkWorld [json_response 200 PNone] [])))
     = [] ++ mkFetch (lit "https://api.quartr.com/public/v1/transcripts/document/"
                        ++ lit "12345")
                     [(lit "X-Api-Key", lit "secret")] [] o :: rest)
  /\ both_named_run
     = (mkWorld tt [mkFetch URL_A [] [] (json_response 404 PNone)], Ok []).
Proof.
  split.
  - apply (proj2 (proj2 (source_priority scripted_get (lit "secret")
                           ascii_isdigit_char
                           (lit "https://app.quartr.com/events/12345/transcript") []
                           (mkWorld [json_response 200 PNone] [])))
                 (lit "12345")); reflexivity.
  - destruct (proj1 (source_priority (routed_get URL_B (lit "Hello")) (lit "secret")
                       ascii_isdigit_char []
                       [(lit "transcriptUrl", PStr URL_A);
                        (lit "liveTranscripts",
                         PDict [(lit "finishedLiveTranscriptUrl", PStr URL_B)])]
                       (mkWorld tt []))
                URL_A eq_refl eq_refl) as (f & Hrun & Hbad).
    unfold both_named_run. rewrite Hrun, (Hbad eq_refl). reflexivity.
Defined.

(** No lower source is tried after a failed request.  The transcripts
    object names both raw URLs and the server has a transcript only at the
    second one: the first URL is requested, the answer is 404, and the
    result is the empty string, although the second source alone yields
    the text on the same server. *)
Lemma no_fallback_after_failed_request :
  List.map fetch_url (fetches (fst both_named_run)) = [URL_A]
  /\ snd both_named_run = Ok []
  /\ snd second_named_run = Ok (lit "Hello.").
Proof. vm_compute. repeat split. Qed.

(** A call that makes one request and then only computes leaves the world
    right after that request. *)
Lemma one_request_world (Session : Type)
    (session_get : Session -> str -> headers -> dict -> Session * res Response)
    (A : Type) (u : str) (h : headers) (p : dict)
    (k : Response -> M (World Session) A) (handler : exn -> M (World Session) A)
    (w : World Session) :
  (forall r, quiet (k r)) -> (forall e, quiet (handler e)) ->
  fst (try_except (bind (http_get session_get u h p) k) handler w)
  = after_get session_get w u h p.
Proof.
  intros Hk Hh. unfold try_except, bind. rewrite http_get_run.
  destruct (answer session_get w u h p) as [r|e].
  - destruct (Hk r (after_get session_get w u h p)) as [o ->].
    destruct o as [a|e].
    + reflexivity.
    + destruct (Hh e (after_get session_get w u h p)) as [o' ->]. reflexivity.
  - destruct (Hh e (after_get session_get w u h p)) as [o' ->]. reflexivity.
Qed.

Section MetadataFacts.

Variable Session : Type.
Variable session_get : Session -> str -> headers -> dict -> Session * res Response.
Variable api_key : str.








End MetadataFacts.



Example company_events_not_found :
  snd (QuartrAPI.get_company_events scripted_get (lit "secret") (lit "4742")
         (lit "all") (mkWorld [json_response 404 PNone] []))
  = Ok (PDict []).
Proof. reflexivity. Qed.

(** ** Escaping in the renderer *)

Lemma replace_one_char (a : char) (new s : str) :
  replace [a] new s = flat_map (fun c => if N.eqb c a then new else [c]) s.
Proof.
  unfold replace. induction s as [|c r IH]; [reflexivity|].
  cbn [replace_from starts_with List.length Nat.pred flat_map].
  rewrite andb_true_r, (N.eqb_sym a c).
  destruct (N.eqb c a); rewrite IH; reflexivity.
Qed.

Lemma flat_map_flat_map (f g : char -> str) (s : str) :
  flat_map g (flat_map f s) = flat_map (fun c => flat_map g (f c)) s.
Proof.
  induction s as [|c r IH]; [reflexivity|].
  cbn [flat_map]. rewrite flat_map_app, IH. reflexivity.
Qed.

(** The three replacements in the order of the source amount to replacing
    every character by its own entity, once. *)
Lemma xml_escape_char_by_char (s : str) :
  xml_escape s = flat_map escape_char s.
Proof.
  unfold xml_escape.
  change (lit "&") with [AMP]. change (lit "<") with [LT]. change (lit ">") with [GT].
  rewrite !replace_one_char, !flat_map_flat_map.
  apply flat_map_ext. intros c. unfold escape_char.
  destruct (N.eqb_spec c AMP) as [->|Ha]; [reflexivity|].
  cbn [flat_map app].
  destruct (N.eqb_spec c LT) as [->|Hl]; [reflexivity|].
  cbn [flat_map app].
  destruct (N.eqb_spec c GT) as [->|Hg]; reflexivity.
Qed.

Lemma escape_char_no_angle (c : char) :
  Forall (fun x => x <> LT /\ x <> GT) (escape_char c).
Proof.
  unfold escape_char.
  destruct (N.eqb_spec c AMP); [repeat constructor; discriminate|].
  destruct (N.eqb_spec c LT); [repeat constructor; discriminate|].
  destruct (N.eqb_spec c GT); [repeat constructor; discriminate|].
  repeat constructor; assumption.
Qed.

Lemma escaped_no_angle (s : str) :
  Forall (fun x => x <> LT /\ x <> GT) (flat_map escape_char s).
Proof.
  induction s as [|c r IH]; [constructor|].
  cbn [flat_map]. apply Forall_app. split; [apply escape_char_no_angle | exact IH].
Qed.

Lemma escaped_amp_opens_entity (s : str) :
  amp_opens_entity (flat_map escape_char s) = true.
Proof.
  induction s as [|c r IH]; [reflexivity|].
  cbn [flat_map]. unfold escape_char.
  destruct (N.eqb_spec c AMP); [cbn; exact IH|].
  destruct (N.eqb_spec c LT); [cbn; exact IH|].
  destruct (N.eqb_spec c GT); [cbn; exact IH|].
  cbn [app amp_opens_entity].
  destruct (N.eqb_spec c AMP); [contradiction|]. exact IH.
Qed.

Section RenderFacts.

Variable paragraph_error : str -> StyleName -> option exn.
Variable doc_build : list Flowable -> res bytes.
Variables company_name event_title event_date transcript_text : str.

Local Notation "'ok_call'" :=
  (escaped_call company_name event_title event_date transcript_text).
Local Notation "'ok_flowable'" :=
  (escaped_flowable company_name event_title event_date transcript_text).

(** The loop over the body paragraphs never raises, and both what it hands
    to the engine and what it adds to the story is escaped. *)
Lemma add_paragraphs_escaped (paragraphs : list str) :
  incl paragraphs (split [NL; NL] transcript_text) ->
  forall (story : list Flowable) (log : EngineLog),
    Forall ok_flowable story ->
    exists calls story',
      add_paragraphs paragraph_error paragraphs story log = (log ++ calls, Ok story')
      /\ Forall ok_call calls
      /\ Forall ok_flowable story'.
Proof.
  induction paragraphs as [|para rest IH]; intros Hin story log Hstory.
  - exists [], story. rewrite app_nil_r. auto.
  - assert (Hrest : incl rest (split [NL; NL] transcript_text))
      by (intros x Hx; apply Hin; right; exact Hx).
    assert (Hpara : escaped_text company_name event_title event_date transcript_text
                      (xml_escape (strip para)) CustomText).
    { unfold escaped_text. rewrite xml_escape_char_by_char.
      apply (in_map (fun p => flat_map escape_char (strip p))).
      apply Hin. left. reflexivity. }
    cbn [add_paragraphs].
    destruct (nonempty (strip para)).
    + unfold bind at 1. unfold try_except, bind, new_paragraph, new_spacer, ret.
      destruct (paragraph_error (xml_escape (strip para)) CustomText) as [e|].
      * destruct (IH Hrest story (log ++ [NewParagraph (xml_escape (strip para)) CustomText])
                    Hstory) as (calls & story' & -> & Hc & Hs).
        exists (NewParagraph (xml_escape (strip para)) CustomText :: calls), story'.
        rewrite <- app_assoc. repeat split; auto.
      * set (p := Paragraph (xml_escape (strip para)) CustomText).
        assert (Hs2 : Forall ok_flowable (story ++ [p; Spacer 1 6])).
        { apply Forall_app. split; [exact Hstory|]. repeat constructor. exact Hpara. }
        destruct (IH Hrest _ ((log ++ [NewParagraph (xml_escape (strip para)) CustomText])
                                ++ [NewSpacer 1 6]) Hs2)
          as (calls & story' & -> & Hc & Hs).
        exists (NewParagraph (xml_escape (strip para)) CustomText
                  :: NewSpacer 1 6 :: calls), story'.
        rewrite <- !app_assoc. repeat split; auto.
        constructor; [exact Hpara|]. constructor; [exact I | exact Hc].
    + apply IH; assumption.
Qed.

(** C4.  Every text [create_pdf] hands to the layout engine, in a Paragraph
    or in the story given to the build, is the header whose company name and
    event title were replaced character by character by their entities, or
    a stripped body paragraph replaced in the same way.  The three
    replacements of the source, ampersand first, are exactly that
    character-by-character replacement, so no entity is escaped twice; the
    escaped text contains neither angle bracket and each of its ampersands
    opens an entity. *)
Theorem create_pdf_escapes_markup (log : EngineLog) :
  (exists calls,
      fst (create_pdf paragraph_error doc_build company_name event_title event_date
             transcript_text log) = log ++ calls
      /\ Forall ok_call calls)
  /\ (forall s : str,
         xml_escape s = flat_map escape_char s
         /\ Forall (fun c => c <> LT /\ c <> GT) (xml_escape s)
         /\ amp_opens_entity (xml_escape s) = true).
Proof.
  split.
  - unfold create_pdf. destruct (nonempty transcript_text).
    2:{ exists []. rewrite app_nil_r. auto. }
    cbn [negb]. unfold bind at 1 2 3 4 5. unfold engine_call, new_paragraph.
    set (h := header_markup (xml_escape company_name) (xml_escape event_title) event_date).
    assert (Hh : escaped_text company_name event_title event_date transcript_text
                   h CustomHeader).
    { unfold h, escaped_text. rewrite !xml_escape_char_by_char. reflexivity. }
    set (pre := [NewSimpleDocTemplate 72 72 72 72; GetSampleStyleSheet;
                 NewParagraphStyle CustomHeader 14; NewParagraphStyle CustomText 10;
                 NewParagraph h CustomHeader]).
    assert (Hpre : Forall ok_call pre).
    { unfold pre. repeat constructor. exact Hh. }
    replace (((((log ++ [NewSimpleDocTemplate 72 72 72 72]) ++ [GetSampleStyleSheet])
                ++ [NewParagraphStyle CustomHeader 14])
               ++ [NewParagraphStyle CustomText 10]) ++ [NewParagraph h CustomHeader])
      with (log ++ pre) by (unfold pre; rewrite <- !app_assoc; reflexivity).
    destruct (paragraph_error h CustomHeader) as [e|].
    { exists pre. auto. }
    unfold bind at 1. unfold new_spacer.
    unfold bind at 1.
    assert (Hs0 : Forall ok_flowable [Paragraph h CustomHeader; Spacer 1 30])
      by (repeat constructor; exact Hh).
    destruct (add_paragraphs_escaped (incl_refl _)
                ((log ++ pre) ++ [NewSpacer 1 30]) Hs0)
      as (calls & story' & -> & Hc & Hs).
    unfold try_except, build, ret.
    exists (pre ++ NewSpacer 1 30 :: calls ++ [Build story']).
    split.
    + destruct (doc_build story'); cbn [fst];
        rewrite <- !app_assoc; reflexivity.
    + apply Forall_app. split; [exact Hpre|].
      constructor; [exact I|]. apply Forall_app. split; [exact Hc|].
      constructor; [exact Hs | constructor].
  - intros s. rewrite xml_escape_char_by_char.
    split; [reflexivity|]. split; [apply escaped_no_angle | apply escaped_amp_opens_entity].
Qed.

End RenderFacts.

Example xml_escape_example :
  xml_escape (lit "AT&T <R&D> &lt;") = lit "AT&amp;T &lt;R&amp;D&gt; &amp;lt;".
Proof. vm_compute. reflexivity. Qed.

(** ** The text formatter: neighbours, pieces and trimming *)

Lemma chain_tail (R : char -> char -> bool) (c : char) (r : str) :
  chain R (c :: r) = true -> chain R r = true.
Proof.
  destruct r as [|b r]; [reflexivity|]. cbn [chain]. intros H.
  apply andb_true_iff in H. apply H.
Qed.

Lemma chain_cons (R : char -> char -> bool) (c : char) (x : str) :
  link R [c] x = true -> chain R x = true -> chain R (c :: x) = true.
Proof.
  destruct x as [|b x]; [reflexivity|]. cbn [chain link last].
  intros -> ->. reflexivity.
Qed.

Lemma chain_app (R : char -> char -> bool) (x y : str) :
  chain R (x ++ y) = chain R x && chain R y && link R x y.
Proof.
  induction x as [|a x IH].
  - cbn. rewrite andb_true_r. reflexivity.
  - destruct x as [|a' x].
    + destruct y as [|b y]; [reflexivity|]. cbn [app chain link last].
      rewrite andb_comm. reflexivity.
    + change ((a :: a' :: x) ++ y) with (a :: ((a' :: x) ++ y)).
      change (chain R (a :: (a' :: x) ++ y))
        with (R a a' && chain R ((a' :: x) ++ y)).
      rewrite IH.
      change (chain R (a :: a' :: x)) with (R a a' && chain R (a' :: x)).
      assert (Hl : link R (a :: a' :: x) y = link R (a' :: x) y)
        by (destruct y; reflexivity).
      rewrite Hl, !andb_assoc. reflexivity.
Qed.

(** *** Pieces of a split *)

Lemma split_one_char (d : char) (s : str) :
  split [d] s = split_by (N.eqb d) s.
Proof.
  unfold split. induction s as [|c r IH]; [reflexivity|].
  cbn [split_from split_by starts_with List.length Nat.pred].
  rewrite andb_true_r, IH. reflexivity.
Qed.

Lemma split_by_cons (p : char -> bool) (s : str) :
  exists w ws, split_by p s = w :: ws.
Proof.
  destruct s as [|c r]; [exists [], []; reflexivity|].
  cbn [split_by]. destruct (p c); [eexists _, _; reflexivity|].
  destruct (split_by p r); eexists _, _; reflexivity.
Qed.

(** The first piece is a prefix: when it is not empty it starts where the
    string starts. *)
Lemma split_by_head (p : char -> bool) (s w : str) (ws : list str) :
  split_by p s = w :: ws ->
  w = [] \/ exists c w' r, w = c :: w' /\ s = c :: r.
Proof.
  intros H. destruct s as [|c r]; cbn [split_by] in H.
  - injection H as <- _. left; reflexivity.
  - destruct (p c).
    + injection H as <- _. left; reflexivity.
    + destruct (split_by_cons p r) as (w0 & ws0 & E). rewrite E in H.
      injection H as <- _. right. eexists _, _, _. split; reflexivity.
Qed.

Lemma split_by_app_sep (p : char -> bool) (x : str) (c : char) (y : str) :
  p c = true ->
  split_by p (x ++ c :: y) = split_by p x ++ split_by p y.
Proof.
  intros Hc. induction x as [|a x IH]; cbn [app split_by].
  - rewrite Hc. reflexivity.
  - rewrite IH. destruct (p a); [reflexivity|].
    destruct (split_by_cons p x) as (w & ws & ->). reflexivity.
Qed.

Lemma split_by_whole (p : char -> bool) (u : str) :
  forallb (fun c => negb (p c)) u = true -> split_by p u = [u].
Proof.
  induction u as [|c u IH]; [reflexivity|]. cbn [forallb split_by].
  intros H. apply andb_true_iff in H as [Hc Hu].
  apply negb_true_iff in Hc. rewrite Hc, (IH Hu). reflexivity.
Qed.

(** No piece contains a separator. *)
Lemma split_by_pieces_free (p : char -> bool) (s : str) :
  Forall (fun w => forallb (fun c => negb (p c)) w = true) (split_by p s).
Proof.
  induction s as [|c r IH]; [repeat constructor|]. cbn [split_by].
  destruct (p c) eqn:Hc; [constructor; [reflexivity | exact IH]|].
  destruct (split_by_cons p r) as (w & ws & E). rewrite E in *.
  inversion IH as [|? ? Hw Hws]; subst. constructor; [|exact Hws].
  cbn [forallb]. rewrite Hc, Hw. reflexivity.
Qed.

(** Every piece keeps a property all characters of the string have. *)
Lemma split_by_pieces_forallb (q p : char -> bool) (s : str) :
  forallb q s = true ->
  Forall (fun w => forallb q w = true) (split_by p s).
Proof.
  induction s as [|c r IH]; [repeat constructor|]. cbn [forallb split_by].
  intros H. apply andb_true_iff in H as [Hc Hr]. specialize (IH Hr).
  destruct (p c); [constructor; [reflexivity | exact IH]|].
  destruct (split_by_cons p r) as (w & ws & E). rewrite E in *.
  inversion IH as [|? ? Hw Hws]; subst. constructor; [|exact Hws].
  cbn [forallb]. rewrite Hc, Hw. reflexivity.
Qed.

(** Every piece keeps a property all neighbours of the string have. *)
Lemma split_by_pieces_chain (R : char -> char -> bool) (p : char -> bool) (s : str) :
  chain R s = true ->
  Forall (fun w => chain R w = true) (split_by p s).
Proof.
  induction s as [|c r IH]; [repeat constructor|]. intros H.
  specialize (IH (chain_tail _ _ _ H)). cbn [split_by].
  destruct (p c); [constructor; [reflexivity | exact IH]|].
  destruct (split_by_cons p r) as (w & ws & E).
  destruct (split_by_head p r E) as [-> | (b & w' & r' & -> & ->)];
    rewrite E in *; inversion IH as [|? ? Hw Hws]; subst;
    (constructor; [|exact Hws]); [reflexivity|].
  cbn [cons_head]. apply chain_cons; [|exact Hw].
  cbn [chain] in H. apply andb_true_iff in H as [H _]. exact H.
Qed.

(** *** Joining *)

Lemma join_cons (sep w : str) (ws : list str) :
  ws <> [] -> join sep (w :: ws) = w ++ sep ++ join sep ws.
Proof. destruct ws; [congruence | reflexivity]. Qed.

Lemma join_app (sep : str) (a b : list str) :
  a <> [] -> b <> [] -> join sep (a ++ b) = join sep a ++ sep ++ join sep b.
Proof.
  intros Ha Hb. induction a as [|w a IH]; [congruence|].
  destruct a as [|w' a].
  - cbn [app]. rewrite join_cons by exact Hb. reflexivity.
  - change ((w :: w' :: a) ++ b) with (w :: ((w' :: a) ++ b)).
    rewrite join_cons by discriminate.
    rewrite IH by discriminate.
    rewrite (join_cons sep w (ws:=w' :: a)) by discriminate.
    rewrite <- !app_assoc. reflexivity.
Qed.

Lemma join_forallb (q : char -> bool) (sep : str) (l : list str) :
  forallb q sep = true ->
  Forall (fun w => forallb q w = true) l ->
  forallb q (join sep l) = true.
Proof.
  intros Hsep H. induction H as [|w l Hw Hl IH]; [reflexivity|].
  destruct l as [|w' l]; [exact Hw|].
  rewrite join_cons by discriminate.
  rewrite !forallb_app, Hw, Hsep, IH. reflexivity.
Qed.

(** Joining the pieces of a split with the separator gives the string
    back, when the separator is the only character that splits. *)
Lemma join_split_by (p : char -> bool) (d : char) (s : str) :
  forallb (fun c => negb (p c) || N.eqb c d) s = true ->
  join [d] (split_by p s) = s.
Proof.
  induction s as [|c r IH]; [reflexivity|]. cbn [forallb split_by].
  intros H. apply andb_true_iff in H as [Hc Hr]. specialize (IH Hr).
  destruct (split_by_cons p r) as (w & ws & E). rewrite E in *.
  destruct (p c).
  - cbn [negb orb] in Hc. apply N.eqb_eq in Hc. subst c.
    rewrite join_cons by discriminate. rewrite IH. reflexivity.
  - cbn [cons_head]. destruct ws as [|w' ws].
    + cbn [join] in *. rewrite <- IH. reflexivity.
    + rewrite join_cons in * by discriminate.
      rewrite <- IH. reflexivity.
Qed.

(** *** Trimming *)

Lemma drop_while_snoc (p : char -> bool) (x : str) (c : char) :
  drop_while p (x ++ [c])
  = match drop_while p x with
    | [] => if p c then [] else [c]
    | y => y ++ [c]
    end.
Proof.
  induction x as [|a x IH]; [reflexivity|]. cbn [app drop_while].
  destruct (p a); [exact IH | reflexivity].
Qed.

(** [rstrip] from the front: a character stays when something stays behind
    it or when it is not whitespace. *)
Lemma rstrip_cons (c : char) (r : str) :
  rstrip (c :: r)
  = match rstrip r with
    | [] => if isspace c then [] else [c]
    | _ :: _ => c :: rstrip r
    end.
Proof.
  unfold rstrip. cbn [rev]. rewrite drop_while_snoc.
  destruct (drop_while isspace (rev r)) as [|a l].
  - cbn [rev]. destruct (isspace c); reflexivity.
  - rewrite rev_app_distr. cbn [rev app].
    destruct (rev l ++ [a]) eqn:E; [|reflexivity].
    apply app_eq_nil in E as [_ E]. discriminate.
Qed.

Lemma rstrip_shape (c : char) (r : str) :
  rstrip (c :: r) = [] \/ rstrip (c :: r) = c :: rstrip r.
Proof.
  rewrite rstrip_cons. destruct (rstrip r) eqn:E.
  - destruct (isspace c); [left | right]; reflexivity.
  - right; reflexivity.
Qed.

Lemma lstrip_forallb (q : char -> bool) (s : str) :
  forallb q s = true -> forallb q (lstrip s) = true.
Proof.
  unfold lstrip. induction s as [|c r IH]; [reflexivity|]. cbn [forallb drop_while].
  intros H. destruct (isspace c); [|exact H].
  apply andb_true_iff in H as [_ H]. exact (IH H).
Qed.

Lemma lstrip_chain (R : char -> char -> bool) (s : str) :
  chain R s = true -> chain R (lstrip s) = true.
Proof.
  unfold lstrip. induction s as [|c r IH]; [reflexivity|]. cbn [drop_while].
  intros H. destruct (isspace c); [|exact H].
  exact (IH (chain_tail _ _ _ H)).
Qed.

Lemma lstrip_head (s : str) : head_nonspace (lstrip s) = true.
Proof.
  unfold lstrip. induction s as [|c r IH]; [reflexivity|]. cbn [drop_while].
  destruct (isspace c) eqn:E; [exact IH|]. cbn. rewrite E. reflexivity.
Qed.

Lemma rstrip_forallb (q : char -> bool) (s : str) :
  forallb q s = true -> forallb q (rstrip s) = true.
Proof.
  induction s as [|c r IH]; [reflexivity|]. cbn [forallb]. intros H.
  apply andb_true_iff in H as [Hc Hr].
  destruct (rstrip_shape c r) as [-> | ->]; [reflexivity|].
  cbn [forallb]. rewrite Hc, (IH Hr). reflexivity.
Qed.

Lemma rstrip_chain (R : char -> char -> bool) (s : str) :
  chain R s = true -> chain R (rstrip s) = true.
Proof.
  induction s as [|c r IH]; [reflexivity|]. intros H.
  destruct (rstrip_shape c r) as [-> | ->]; [reflexivity|].
  specialize (IH (chain_tail _ _ _ H)).
  apply chain_cons; [|exact IH].
  destruct r as [|b r]; [reflexivity|].
  destruct (rstrip_shape b r) as [-> | ->]; [reflexivity|].
  cbn [chain] in H. apply andb_true_iff in H as [H _]. exact H.
Qed.

Lemma rstrip_last (s : str) : last_nonspace (rstrip s) = true.
Proof.
  induction s as [|c r IH]; [reflexivity|]. rewrite rstrip_cons.
  destruct (rstrip r) as [|b l] eqn:E.
  - destruct (isspace c) eqn:Hc; [reflexivity|]. cbn. rewrite Hc. reflexivity.
  - exact IH.
Qed.

Lemma rstrip_head (s : str) :
  head_nonspace s = true -> head_nonspace (rstrip s) = true.
Proof.
  destruct s as [|c r]; [reflexivity|]. intros H.
  destruct (rstrip_shape c r) as [-> | ->]; [reflexivity | exact H].
Qed.

Lemma lstrip_fixed (s : str) : head_nonspace s = true -> lstrip s = s.
Proof.
  destruct s as [|c r]; [reflexivity|]. cbn. intros H.
  apply negb_true_iff in H. rewrite H. reflexivity.
Qed.

Lemma rstrip_fixed (s : str) : last_nonspace s = true -> rstrip s = s.
Proof.
  induction s as [|c r IH]; [reflexivity|]. intros H. rewrite rstrip_cons.
  destruct r as [|b r].
  - cbn in *. apply negb_true_iff in H. rewrite H. reflexivity.
  - change (last_nonspace (c :: b :: r)) with (last_nonspace (b :: r)) in H.
    rewrite (IH H). reflexivity.
Qed.

Lemma strip_fixed (s : str) :
  head_nonspace s = true -> last_nonspace s = true -> strip s = s.
Proof.
  intros Hh Hl. unfold strip. rewrite (lstrip_fixed _ Hh). exact (rstrip_fixed _ Hl).
Qed.

Lemma strip_leading_space (c : char) (s : str) :
  isspace c = true -> strip (c :: s) = strip s.
Proof. intros H. unfold strip, lstrip. cbn [drop_while]. rewrite H. reflexivity. Qed.

Lemma strip_all_space (s : str) : forallb isspace s = true -> strip s = [].
Proof.
  intros H. unfold strip.
  assert (E : lstrip s = []).
  { unfold lstrip. induction s as [|c r IH]; [reflexivity|].
    cbn [forallb drop_while] in *. apply andb_true_iff in H as [-> H]. exact (IH H). }
  rewrite E. reflexivity.
Qed.

(** *** The escaped newline *)

Lemma replace_escaped_nl_step (a b : char) (r : str) :
  replace ESCAPED_NL [NL] (a :: b :: r)
  = if N.eqb a BACKSLASH && N.eqb b LOWER_N
    then NL :: replace ESCAPED_NL [NL] r
    else a :: replace ESCAPED_NL [NL] (b :: r).
Proof.
  unfold replace, ESCAPED_NL.
  cbn [replace_from starts_with List.length Nat.pred app].
  rewrite andb_true_r, (N.eqb_sym BACKSLASH a), (N.eqb_sym LOWER_N b).
  destruct (N.eqb a BACKSLASH && N.eqb b LOWER_N); reflexivity.
Qed.

Lemma replace_escaped_nl_one (a : char) :
  replace ESCAPED_NL [NL] [a] = [a].
Proof.
  unfold replace, ESCAPED_NL. cbn [replace_from starts_with].
  rewrite andb_false_r. reflexivity.
Qed.

(** A text without the escaped newline is left as it is. *)
Lemma replace_escaped_nl_fixed (s : str) :
  chain not_escaped_nl s = true -> replace ESCAPED_NL [NL] s = s.
Proof.
  induction s as [|a r IH]; [reflexivity|]. intros H.
  destruct r as [|b r]; [apply replace_escaped_nl_one|].
  rewrite replace_escaped_nl_step.
  cbn [chain] in H. apply andb_true_iff in H as [Hab Hr].
  unfold not_escaped_nl in Hab. apply negb_true_iff in Hab. rewrite Hab.
  rewrite (IH Hr). reflexivity.
Qed.

(** What a replaced text starts with. *)
Lemma replace_escaped_nl_head (b : char) (r : str) :
  exists x, replace ESCAPED_NL [NL] (b :: r) = NL :: x
            \/ replace ESCAPED_NL [NL] (b :: r) = b :: x.
Proof.
  destruct r as [|c r].
  - exists []. right. apply replace_escaped_nl_one.
  - rewrite replace_escaped_nl_step.
    destruct (N.eqb b BACKSLASH && N.eqb c LOWER_N); eexists; [left | right]; reflexivity.
Qed.

(** After the replacement no escaped newline is left. *)
Lemma replace_escaped_nl_chain (s : str) :
  chain not_escaped_nl (replace ESCAPED_NL [NL] s) = true.
Proof.
  assert (H : forall n s, (List.length s <= n)%nat ->
                          chain not_escaped_nl (replace ESCAPED_NL [NL] s) = true).
  { clear s. induction n as [|n IH]; intros s Hlen.
    - destruct s; [reflexivity | cbn in Hlen; lia].
    - destruct s as [|a [|b r]]; [reflexivity | rewrite replace_escaped_nl_one; reflexivity|].
      cbn [List.length] in Hlen. rewrite replace_escaped_nl_step.
      destruct (N.eqb a BACKSLASH && N.eqb b LOWER_N) eqn:E.
      + apply chain_cons; [|apply IH; lia].
        destruct (replace ESCAPED_NL [NL] r); reflexivity.
      + apply chain_cons; [|apply IH; cbn [List.length]; lia].
        destruct (replace_escaped_nl_head b r) as (x & [-> | ->]);
          cbn [link last]; unfold not_escaped_nl.
        * rewrite andb_false_r. reflexivity.
        * rewrite E. reflexivity. }
  exact (H (List.length s) s (le_n _)).
Qed.

Lemma no_backslash_chain (s : str) :
  forallb (fun c => negb (N.eqb c BACKSLASH)) s = true ->
  chain not_escaped_nl s = true.
Proof.
  induction s as [|a r IH]; [reflexivity|]. cbn [forallb]. intros H.
  apply andb_true_iff in H as [Ha Hr]. apply chain_cons; [|exact (IH Hr)].
  destruct r; [reflexivity|]. cbn [link last]. unfold not_escaped_nl.
  apply negb_true_iff in Ha. rewrite Ha. reflexivity.
Qed.

(** *** Collapsing whitespace *)

Lemma filter_all (A : Type) (f : A -> bool) (l : list A) :
  forallb f l = true -> filter f l = l.
Proof.
  induction l as [|x l IH]; [reflexivity|]. cbn [forallb filter]. intros H.
  apply andb_true_iff in H as [-> H]. rewrite (IH H). reflexivity.
Qed.

Lemma Forall_filter (A : Type) (P : A -> Prop) (f : A -> bool) (l : list A) :
  Forall P l -> Forall (fun x => f x = true /\ P x) (filter f l).
Proof.
  intros H. apply Forall_forall. intros x Hx. apply filter_In in Hx as [Hx Hf].
  split; [exact Hf|]. rewrite Forall_forall in H. exact (H x Hx).
Qed.

Lemma forallb_last (q : char -> bool) (w : str) :
  nonempty w = true -> forallb q w = true -> q (last w 0%N) = true.
Proof.
  induction w as [|a w IH]; [discriminate|]. intros _ H.
  cbn [forallb] in H. apply andb_true_iff in H as [Ha Hw].
  destruct w as [|b w]; [exact Ha|]. exact (IH eq_refl Hw).
Qed.

Lemma split_ws_app_sep (x : str) (c : char) (y : str) :
  isspace c = true -> split_ws (x ++ c :: y) = split_ws x ++ split_ws y.
Proof.
  intros H. unfold split_ws. rewrite split_by_app_sep by exact H.
  apply filter_app.
Qed.

Lemma split_ws_leading_space (c : char) (y : str) :
  isspace c = true -> split_ws (c :: y) = split_ws y.
Proof. intros H. unfold split_ws. cbn [split_by]. rewrite H. reflexivity. Qed.

(** The words of a text are not empty and free of whitespace. *)
Lemma split_ws_words (t : str) :
  Forall (fun w => nonempty w = true
                   /\ forallb (fun c => negb (isspace c)) w = true)
         (split_ws t).
Proof. apply Forall_filter, split_by_pieces_free. Qed.

(** Words joined by single spaces keep a property of neighbours that the
    words have and that the space has with every character of a word. *)
Lemma join_space_chain (R : char -> char -> bool) (l : list str) :
  Forall (fun w => nonempty w = true /\ chain R w = true
                   /\ forallb (fun a => R a SP && R SP a) w = true) l ->
  chain R (join [SP] l) = true.
Proof.
  intros H. induction H as [|w l (Hne & Hch & Hsp) Hl IH]; [reflexivity|].
  destruct l as [|w' l]; [exact Hch|].
  rewrite join_cons by discriminate.
  rewrite chain_app, Hch. cbn [andb].
  apply andb_true_iff. split.
  - apply chain_cons; [|exact IH].
    inversion Hl as [|? ? (Hne' & _ & Hsp') _]; subst.
    destruct w' as [|b w']; [discriminate|].
    cbn [forallb] in Hsp'. apply andb_true_iff in Hsp' as [Hb _].
    apply andb_true_iff in Hb as [_ Hb].
    destruct l; [|rewrite join_cons by discriminate]; exact Hb.
  - destruct w as [|a w]; [discriminate|].
    change (link R (a :: w) ([SP] ++ join [SP] (w' :: l)))
      with (R (last (a :: w) 0%N) SP).
    pose proof (forallb_last (fun a => R a SP && R SP a) (a :: w) eq_refl Hsp) as Hlast.
    apply andb_true_iff in Hlast. apply Hlast.
Qed.

Lemma collapse_single_spaced (t : str) : single_spaced (collapse t) = true.
Proof.
  unfold single_spaced, collapse. apply andb_true_iff. split.
  - apply join_forallb; [reflexivity|].
    eapply Forall_impl; [|apply split_ws_words]. cbn. intros w [_ Hw].
    rewrite forallb_forall in *. intros c Hc. unfold space_or_text.
    rewrite (Hw c Hc). reflexivity.
  - apply join_space_chain.
    eapply Forall_impl; [|apply split_ws_words]. cbn. intros w [Hne Hw].
    split; [exact Hne|]. split.
    + clear Hne. induction w as [|a w IH]; [reflexivity|].
      cbn [forallb] in Hw. apply andb_true_iff in Hw as [Ha Hw].
      apply chain_cons; [|exact (IH Hw)].
      destruct w; [reflexivity|]. cbn [link last]. unfold not_both_space.
      apply negb_true_iff in Ha. rewrite Ha. reflexivity.
    + rewrite forallb_forall in *. intros c Hc. specialize (Hw c Hc).
      unfold not_both_space. apply negb_true_iff in Hw. rewrite Hw.
      rewrite andb_false_r. reflexivity.
Qed.

Lemma collapse_chain_escaped_nl (t : str) :
  chain not_escaped_nl t = true -> chain not_escaped_nl (collapse t) = true.
Proof.
  intros H. unfold collapse, split_ws. apply join_space_chain.
  pose proof (Forall_filter nonempty (split_by_pieces_chain not_escaped_nl isspace t H)) as HF.
  eapply Forall_impl; [|exact HF]. cbn. intros w [Hne Hw].
  split; [exact Hne|]. split; [exact Hw|].
  apply forallb_forall. intros c _. unfold not_escaped_nl.
  rewrite andb_false_r. reflexivity.
Qed.

Lemma collapse_forallb (q : char -> bool) (t : str) :
  q SP = true -> forallb q t = true -> forallb q (collapse t) = true.
Proof.
  intros Hsp H. unfold collapse, split_ws. apply join_forallb.
  - cbn. rewrite Hsp. reflexivity.
  - pose proof (Forall_filter nonempty (split_by_pieces_forallb q isspace t H)) as HF.
    eapply Forall_impl; [|exact HF]. cbn. intros w [_ Hw]. exact Hw.
Qed.

(** In a single-spaced text that does not end in a space, every piece
    between spaces but possibly the first is a word. *)
Lemma single_spaced_pieces (s : str) :
  chain not_both_space s = true -> nonempty s = true -> last_nonspace s = true ->
  exists w ws,
    split_by isspace s = w :: ws
    /\ forallb nonempty ws = true
    /\ (head_nonspace s = true -> nonempty w = true).
Proof.
  induction s as [|c r IH]; [discriminate|]. intros Hch _ Hlast.
  destruct r as [|b r].
  - cbn in Hlast. apply negb_true_iff in Hlast.
    cbn [split_by]. rewrite Hlast. exists [c], []. auto.
  - destruct (IH (chain_tail _ _ _ Hch) eq_refl Hlast) as (w & ws & E & Hws & Hw).
    cbn [split_by] in *. cbn [chain] in Hch. apply andb_true_iff in Hch as [Hcb _].
    destruct (isspace c) eqn:Hc.
    + exists [], (split_by isspace (b :: r)). split; [reflexivity|].
      split; [|cbn; rewrite Hc; discriminate].
      cbn [split_by]. rewrite E. cbn [forallb]. rewrite Hws, Hw; [reflexivity|].
      unfold not_both_space in Hcb. rewrite Hc in Hcb. exact Hcb.
    + rewrite E. exists (c :: w), ws. auto.
Qed.

(** A single-spaced text without a space at either end is left as it is. *)
Lemma collapse_fixed (s : str) :
  single_spaced s = true -> head_nonspace s = true -> last_nonspace s = true ->
  collapse s = s.
Proof.
  intros Hss Hh Hl. destruct s as [|c r]; [reflexivity|].
  unfold single_spaced in Hss. apply andb_true_iff in Hss as [Hq Hch].
  destruct (single_spaced_pieces (c :: r) Hch eq_refl Hl) as (w & ws & E & Hws & Hw).
  unfold collapse, split_ws. rewrite filter_all.
  - apply join_split_by. exact Hq.
  - rewrite E. cbn [forallb]. rewrite (Hw Hh), Hws. reflexivity.
Qed.

(** *** The sentence list *)

Lemma sentences_of_split_by (t : str) :
  sentences_of t
  = List.map strip (filter (fun s => nonempty (strip s)) (split_by (N.eqb DOT) t)).
Proof. unfold sentences_of. rewrite split_one_char. reflexivity. Qed.

Lemma sentences_of_leading_space (c : char) (x : str) :
  isspace c = true -> sentences_of (c :: x) = sentences_of x.
Proof.
  intros Hc. rewrite !sentences_of_split_by. cbn [split_by].
  assert (Hd : N.eqb DOT c = false).
  { destruct (N.eqb_spec DOT c) as [<-|]; [discriminate Hc | reflexivity]. }
  rewrite Hd. destruct (split_by_cons (N.eqb DOT) x) as (w & ws & ->).
  cbn [cons_head filter List.map]. rewrite (strip_leading_space c w Hc).
  destruct (nonempty (strip w)); cbn [List.map];
    rewrite ?(strip_leading_space c w Hc); reflexivity.
Qed.

Lemma sentences_of_app_dot (u y : str) :
  forallb not_dot u = true ->
  sentences_of (u ++ DOT :: y)
  = (if nonempty (strip u) then [strip u] else []) ++ sentences_of y.
Proof.
  intros Hu. rewrite !sentences_of_split_by.
  rewrite split_by_app_sep by reflexivity.
  rewrite (split_by_whole (N.eqb DOT) u Hu).
  cbn [app filter]. destruct (nonempty (strip u)); reflexivity.
Qed.

(** Every sentence cut from a single-spaced text without escaped newline
    is clean. *)
Lemma sentences_of_clean (t : str) :
  chain not_escaped_nl t = true -> single_spaced t = true ->
  Forall (fun u => clean u = true) (sentences_of t).
Proof.
  intros Hnl Hss. unfold single_spaced in Hss. apply andb_true_iff in Hss as [Hq Hch].
  rewrite sentences_of_split_by. apply Forall_forall. intros u Hu.
  apply in_map_iff in Hu as (p & <- & Hp). apply filter_In in Hp as [Hp Hne].
  pose proof (split_by_pieces_free (N.eqb DOT) t) as H1.
  pose proof (split_by_pieces_forallb space_or_text (N.eqb DOT) t Hq) as H2.
  pose proof (split_by_pieces_chain not_both_space (N.eqb DOT) t Hch) as H3.
  pose proof (split_by_pieces_chain not_escaped_nl (N.eqb DOT) t Hnl) as H4.
  rewrite Forall_forall in H1, H2, H3, H4.
  specialize (H1 p Hp). specialize (H2 p Hp). specialize (H3 p Hp). specialize (H4 p Hp).
  unfold clean, single_spaced. rewrite Hne. unfold strip.
  rewrite (rstrip_forallb not_dot _ (lstrip_forallb not_dot _ H1)).
  rewrite (rstrip_chain _ _ (lstrip_chain _ _ H4)).
  rewrite (rstrip_forallb _ _ (lstrip_forallb _ _ H2)).
  rewrite (rstrip_chain _ _ (lstrip_chain _ _ H3)).
  rewrite (rstrip_head _ (lstrip_head p)), rstrip_last. reflexivity.
Qed.

(** *** The formatter on its own output *)

Lemma format_transcript_text_steps (s : str) :
  format_transcript_text s
  = paragraphs_of (sentences_of (collapse (replace ESCAPED_NL [NL] s))).
Proof. reflexivity. Qed.

Lemma clean_parts (u : str) :
  clean u = true ->
  nonempty u = true /\ forallb not_dot u = true
  /\ chain not_escaped_nl u = true /\ single_spaced u = true
  /\ head_nonspace u = true /\ last_nonspace u = true.
Proof.
  unfold clean. intros H.
  repeat (apply andb_true_iff in H as [H ?]). auto 10.
Qed.

Lemma not_escaped_nl_left (a b : char) :
  N.eqb a BACKSLASH = false -> not_escaped_nl a b = true.
Proof. intros H. unfold not_escaped_nl. rewrite H. reflexivity. Qed.

Lemma not_escaped_nl_right (a b : char) :
  N.eqb b LOWER_N = false -> not_escaped_nl a b = true.
Proof. intros H. unfold not_escaped_nl. rewrite H, andb_false_r. reflexivity. Qed.

Lemma last_nonspace_snoc (x : str) (c : char) :
  last_nonspace (x ++ [c]) = negb (isspace c).
Proof.
  induction x as [|a x IH]; [reflexivity|].
  cbn [app]. destruct (x ++ [c]) eqn:E; [|exact IH].
  apply app_eq_nil in E as [_ E]. discriminate.
Qed.

Lemma paragraphs_of_cons (u u' : str) (ws : list str) :
  paragraphs_of (u :: u' :: ws) = u ++ PARA_SEP ++ paragraphs_of (u' :: ws).
Proof.
  unfold paragraphs_of. rewrite join_cons by discriminate.
  rewrite <- !app_assoc. reflexivity.
Qed.

(** A sentence followed by its period is a single-spaced text without a
    space at either end. *)
Lemma collapse_sentence (u : str) :
  clean u = true -> collapse (u ++ [DOT]) = u ++ [DOT].
Proof.
  intros H. destruct (clean_parts u H) as (Hne & _ & _ & Hss & Hh & _).
  unfold single_spaced in Hss. apply andb_true_iff in Hss as [Hq Hch].
  destruct u as [|a u]; [discriminate|].
  apply collapse_fixed.
  - unfold single_spaced. rewrite forallb_app, Hq, chain_app, Hch.
    change (link not_both_space (a :: u) [DOT])
      with (not_both_space (last (a :: u) 0%N) DOT).
    unfold not_both_space. rewrite andb_false_r. reflexivity.
  - exact Hh.
  - apply last_nonspace_snoc.
Qed.

(** The output contains no escaped newline. *)
Lemma paragraphs_of_chain (l : list str) :
  Forall (fun u => clean u = true) l ->
  chain not_escaped_nl (paragraphs_of l) = true.
Proof.
  intros H. induction H as [|u l Hu Hl IH]; [reflexivity|].
  destruct (clean_parts u Hu) as (Hne & _ & Hch & _).
  destruct u as [|a u]; [discriminate|].
  assert (Hlink : forall y, link not_escaped_nl (a :: u) (DOT :: y) = true).
  { intros y. apply not_escaped_nl_right. reflexivity. }
  destruct l as [|u' l].
  - unfold paragraphs_of. cbn [join].
    rewrite chain_app, Hch, Hlink. reflexivity.
  - rewrite paragraphs_of_cons.
    rewrite chain_app, Hch. unfold PARA_SEP. cbn [app]. rewrite Hlink.
    rewrite andb_true_r. cbn [andb].
    repeat (apply chain_cons; [try reflexivity|]); [|exact IH].
    destruct (paragraphs_of (u' :: l)); reflexivity.
Qed.

(** Collapsing the output turns every blank line into one space. *)
Lemma collapse_paragraphs_of (l : list str) :
  Forall (fun u => clean u = true) l ->
  collapse (paragraphs_of l) = join [DOT; SP] l ++ [DOT].
Proof.
  intros H. induction H as [|u l Hu Hl IH]; [reflexivity|].
  destruct l as [|u' l]; [exact (collapse_sentence u Hu)|].
  rewrite paragraphs_of_cons, join_cons by discriminate.
  pose proof (collapse_sentence u Hu) as Hc.
  set (rest := paragraphs_of (u' :: l)) in *.
  replace (u ++ PARA_SEP ++ rest) with ((u ++ [DOT]) ++ NL :: NL :: rest)
    by (rewrite <- app_assoc; reflexivity).
  unfold collapse in *.
  rewrite split_ws_app_sep by reflexivity.
  rewrite split_ws_leading_space by reflexivity.
  rewrite join_app.
  - rewrite Hc, IH. rewrite <- !app_assoc. reflexivity.
  - intros E. rewrite E in Hc. destruct u; discriminate.
  - intros E. rewrite E in IH. cbn [join] in IH.
    symmetry in IH. apply app_eq_nil in IH as [_ IH]. discriminate.
Qed.

(** Cutting the collapsed output at the periods gives the sentences back. *)
Lemma sentences_of_collapsed (l : list str) :
  Forall (fun u => clean u = true) l ->
  sentences_of (join [DOT; SP] l ++ [DOT]) = l.
Proof.
  intros H. induction H as [|u l Hu Hl IH]; [reflexivity|].
  destruct (clean_parts u Hu) as (Hne & Hnd & _ & _ & Hh & Hlast).
  assert (Hs : (if nonempty (strip u) then [strip u] else []) = [u]).
  { rewrite (strip_fixed u Hh Hlast), Hne. reflexivity. }
  destruct l as [|u' l].
  - cbn [join]. rewrite sentences_of_app_dot by exact Hnd.
    rewrite Hs. reflexivity.
  - rewrite join_cons by discriminate.
    replace ((u ++ [DOT; SP] ++ join [DOT; SP] (u' :: l)) ++ [DOT])
      with (u ++ DOT :: SP :: (join [DOT; SP] (u' :: l) ++ [DOT]))
      by (rewrite <- !app_assoc; reflexivity).
    rewrite sentences_of_app_dot by exact Hnd.
    rewrite Hs, sentences_of_leading_space by reflexivity.
    rewrite IH. reflexivity.
Qed.

(** The sentences the formatter cuts are clean, whatever the input. *)
Lemma format_sentences_clean (s : str) :
  Forall (fun u => clean u = true)
         (sentences_of (collapse (replace ESCAPED_NL [NL] s))).
Proof.
  apply sentences_of_clean.
  - apply collapse_chain_escaped_nl, replace_escaped_nl_chain.
  - apply collapse_single_spaced.
Qed.

(** C7.  [format_transcript_text] applied to its own output returns that
    output, for every input string. *)
Theorem format_transcript_text_idempotent (s : str) :
  format_transcript_text (format_transcript_text s) = format_transcript_text s.
Proof.
  rewrite (format_transcript_text_steps s).
  pose proof (format_sentences_clean s) as H.
  set (l := sentences_of (collapse (replace ESCAPED_NL [NL] s))) in *.
  rewrite format_transcript_text_steps.
  rewrite (replace_escaped_nl_fixed _ (paragraphs_of_chain H)).
  rewrite (collapse_paragraphs_of H).
  rewrite (sentences_of_collapsed H). reflexivity.
Qed.

(** *** Blank input *)

Lemma filter_none (A : Type) (f : A -> bool) (l : list A) :
  Forall (fun x => f x = false) l -> filter f l = [].
Proof.
  intros H. induction H as [|x l Hx Hl IH]; [reflexivity|].
  cbn [filter]. rewrite Hx. exact IH.
Qed.

(** A text of whitespace and periods has no sentence: the result is the
    period that line 333 appends. *)
Lemma format_blank (s : str) :
  forallb blank_char s = true -> format_transcript_text s = [DOT].
Proof.
  intros H. rewrite format_transcript_text_steps.
  assert (Hbs : forallb (fun c => negb (N.eqb c BACKSLASH)) s = true).
  { rewrite forallb_forall in *. intros c Hc. specialize (H c Hc).
    destruct (N.eqb_spec c BACKSLASH) as [->|]; [discriminate H | reflexivity]. }
  rewrite (replace_escaped_nl_fixed s (no_backslash_chain s Hbs)).
  pose proof (collapse_forallb blank_char s eq_refl H) as Hc.
  rewrite sentences_of_split_by, filter_none; [reflexivity|].
  pose proof (split_by_pieces_free (N.eqb DOT) (collapse s)) as H1.
  pose proof (split_by_pieces_forallb blank_char (N.eqb DOT) (collapse s) Hc) as H2.
  rewrite Forall_forall in *. intros p Hp.
  specialize (H1 p Hp). specialize (H2 p Hp).
  rewrite strip_all_space; [reflexivity|].
  rewrite forallb_forall in *. intros c Hin.
  specialize (H1 c Hin). specialize (H2 c Hin).
  unfold blank_char in H2. apply negb_true_iff in H1.
  rewrite N.eqb_sym, H1, orb_false_r in H2. exact H2.
Qed.

(** C2 (as the code has it).  [format_transcript_text] of the empty
    string is the one-character string made of a period, and so is its
    result on every input made only of whitespace and period characters. *)
Theorem format_blank_is_period (s : str)
    (Hblank : forallb blank_char s = true) :
  format_transcript_text [] = [DOT] /\ format_transcript_text s = [DOT].
Proof. split; [reflexivity | exact (format_blank s Hblank)]. Qed.

Lemma format_blank_is_period_witness :
  forallb blank_char ([SP; NL] ++ lit ". ..") = true
  /\ format_transcript_text [] = [DOT]
  /\ format_transcript_text ([SP; NL] ++ lit ". ..") = [DOT].
Proof.
  split; [reflexivity|].
  apply (format_blank_is_period ([SP; NL] ++ lit ". ..")). reflexivity.
Defined.

(** The empty string is not mapped to the empty string. *)
Lemma format_empty_is_not_empty : format_transcript_text [] <> [].
Proof. vm_compute. discriminate. Qed.

(** C10.  The output of [format_transcript_text] is never empty and its
    last character is a period; on the empty string and on every input of
    whitespace and periods only it is the period alone. *)
Theorem format_ends_with_period (s : str) :
  (exists body, format_transcript_text s = body ++ [DOT])
  /\ format_transcript_text s <> []
  /\ (forallb blank_char s = true -> format_transcript_text s = [DOT]).
Proof.
  split; [|split].
  - rewrite format_transcript_text_steps. eexists. reflexivity.
  - rewrite format_transcript_text_steps. unfold paragraphs_of.
    intros E. apply app_eq_nil in E as [_ E]. discriminate.
  - apply format_blank.
Qed.

Lemma format_ends_with_period_witness :
  forallb blank_char (lit " . ") = true
  /\ format_transcript_text (lit " . ") = [DOT].
Proof.
  split; [reflexivity|].
  apply (format_ends_with_period (lit " . ")). reflexivity.
Defined.

(** * Further properties of the code *)

(** ** The metadata client *)

Section MetadataRequests.

Variable Session : Type.
Variable session_get : Session -> str -> headers -> dict -> Session * res Response.
Variable api_key : str.

(** X1.  Each of the three company calls makes exactly one request,
    whatever the answer: to base_url/companies/{id}/earlier-events with
    limit 10 and page 1 (and the type only when it is not "all") for the
    events, to base_url/companies/{id} without parameters for the company
    info and for the company name; each carries the X-Api-Key header. *)
Theorem company_calls_request_once (company_id event_type : str)
    (w : World Session) :
  let events_url :=
    lit "https://api.quartr.com/public/v1/companies/" ++ company_id
      ++ lit "/earlier-events" in
  let company_url :=
    lit "https://api.quartr.com/public/v1/companies/" ++ company_id in
  let key_header := [(lit "X-Api-Key", api_key)] in
  let params :=
    (if str_eqb event_type (lit "all") then []
     else [(lit "type", PStr event_type)])
    ++ [(lit "limit", PInt 10); (lit "page", PInt 1)] in
  fetches (fst (QuartrAPI.get_company_events session_get api_key
                  company_id event_type w))
  = fetches w
      ++ [mkFetch events_url key_header params
            (answer session_get w events_url key_header params)]
  /\ fetches (fst (QuartrAPI.get_company_info session_get api_key company_id w))
     = fetches w
         ++ [mkFetch company_url key_header []
               (answer session_get w company_url key_header [])]
  /\ fetches (fst (QuartrAPI._get_company_name_direct session_get api_key
                     company_id w))
     = fetches w
         ++ [mkFetch company_url key_header []
               (answer session_get w company_url key_header [])].
Proof.
  cbv zeta. split; [|split].
  - unfold QuartrAPI.get_company_events. rewrite one_request_world.
    + unfold QuartrAPI.base_url, QuartrAPI.self_headers, QUARTR_HEADER_NAME.
      destruct (str_eqb event_type (lit "all")); reflexivity.
    + intros r. quiet_steps.
    + intros e. quiet_steps.
  - unfold QuartrAPI.get_company_info. rewrite one_request_world.
    + reflexivity.
    + intros r. quiet_steps.
    + intros e. quiet_steps.
  - unfold QuartrAPI._get_company_name_direct. cbv zeta. rewrite one_request_world.
    + reflexivity.
    + intros r. quiet_steps.
    + intros e. quiet_steps.
Qed.

(** X2.  When the events request is answered with status 200 and a JSON
    body, [get_company_events] returns the object {events: data} built from
    the body's data entry, with the empty list when the entry is missing;
    a body that is not a JSON object gives the empty dictionary. *)
Theorem company_events_payload (company_id event_type : str) (w : World Session)
    (r : Response) (data : pyval) :
  answer session_get w
    (QuartrAPI.base_url ++ lit "/companies/" ++ company_id ++ lit "/earlier-events")
    (QuartrAPI.self_headers api_key)
    ((if negb (str_eqb event_type (lit "all"))
      then [(lit "type", PStr event_type)] else [])
     ++ [(lit "limit", PInt 10); (lit "page", PInt 1)]) = Ok r ->
  status r = 200%Z ->
  resp_json r = Ok data ->
  snd (QuartrAPI.get_company_events session_get api_key company_id event_type w)
  = Ok (match data with
        | PDict d =>
            PDict [(lit "events",
                    match lookup (lit "data") d with
                    | Some events => events
                    | None => PList []
                    end)]
        | _ => PDict []
        end).
Proof.
  intros Ha Hs Hj. unfold QuartrAPI.get_company_events, try_except, bind.
  rewrite http_get_run, Ha, Hs. cbn [Z.eqb Pos.eqb]. unfold lift, ret.
  rewrite Hj. destruct data; reflexivity.
Qed.

(** X3.  [_get_company_name_direct] never raises and its result is fixed
    by the answer to its request: when the answer has status 200 and its
    body is a JSON object with a displayName entry, the result is that
    entry; in every other case (an exception of the request, another
    status, a body that cannot be read as JSON, a JSON value that is not an
    object, an object without displayName) it is the fallback name
    Company-{id}. *)
Theorem company_name_or_fallback (company_id : str) (w : World Session) :
  let fallback := PStr (lit "Company-" ++ company_id) in
  snd (QuartrAPI._get_company_name_direct session_get api_key company_id w)
  = Ok (match answer session_get w
                (lit "https://api.quartr.com/public/v1/companies/" ++ company_id)
                [(lit "X-Api-Key", api_key)] [] with
        | Ok r =>
            if (status r =? 200)%Z then
              match resp_json r with
              | Ok (PDict d) =>
                  match lookup (lit "displayName") d with
                  | Some name => name
                  | None => fallback
                  end
              | _ => fallback
              end
            else fallback
        | Raise _ => fallback
        end).
Proof.
  cbv zeta.
  unfold QuartrAPI._get_company_name_direct, try_except, bind. cbv zeta.
  rewrite http_get_run.
  replace (QuartrAPI.base_url ++ lit "/companies/" ++ company_id)
    with (lit "https://api.quartr.com/public/v1/companies/" ++ company_id)
    by reflexivity.
  change (QuartrAPI.self_headers api_key) with [(lit "X-Api-Key", api_key)].
  destruct (answer session_get w _ _ _) as [r|e]; [|reflexivity].
  destruct (status r =? 200)%Z; [|reflexivity].
  unfold lift.
  destruct (resp_json r) as [data|e]; [|reflexivity].
  destruct data; reflexivity.
Qed.

(** X4.  [get_document] sends its one request without any header or
    parameter (the API key never goes to a document URL), and it returns a
    body exactly when the answer has status 200 and its body can be read;
    in every other case the result is None. *)
Theorem document_fetch_without_credentials (doc_url : str) (w : World Session) :
  fetches (fst (QuartrAPI.get_document session_get doc_url w))
  = fetches w ++ [mkFetch doc_url [] [] (answer session_get w doc_url [] [])]
  /\ exists v,
       snd (QuartrAPI.get_document session_get doc_url w) = Ok v
       /\ (forall body,
              v = Some body
              <-> exists r, answer session_get w doc_url [] [] = Ok r
                            /\ status r = 200%Z /\ resp_read r = Ok body).
Proof.
  split.
  - unfold QuartrAPI.get_document. rewrite one_request_world; [reflexivity| |].
    + intros r. quiet_steps.
    + intros e. quiet_steps.
  - unfold QuartrAPI.get_document, try_except, bind. rewrite http_get_run.
    destruct (answer session_get w doc_url [] []) as [r|e].
    + destruct (status r =? 200)%Z eqn:Hs.
      * apply Z.eqb_eq in Hs. unfold lift.
        destruct (resp_read r) as [b|e] eqn:Hr.
        -- exists (Some b). split; [reflexivity|]. intros body. split.
           ++ intros E. injection E as <-. exists r. auto.
           ++ intros (r' & E & _ & Hb). injection E as <-.
              rewrite Hr in Hb. injection Hb as <-. reflexivity.
        -- exists None. split; [reflexivity|]. intros body. split; [discriminate|].
           intros (r' & E & _ & Hb). injection E as <-.
           rewrite Hr in Hb. discriminate.
      * exists None. split; [reflexivity|]. intros body. split; [discriminate|].
        intros (r' & E & Hs' & _). injection E as <-.
        rewrite Hs' in Hs. discriminate.
    + exists None. split; [reflexivity|]. intros body. split; [discriminate|].
      intros (r' & E & _). discriminate.
Qed.

End MetadataRequests.

Lemma company_events_payload_witness :
  snd (QuartrAPI.get_company_events scripted_get (lit "secret") (lit "4742")
         (lit "earnings")
         (mkWorld [json_response 200 (PDict [(lit "total", PInt 0)])] []))
  = Ok (PDict [(lit "events", PList [])]).
Proof.
  apply (company_events_payload scripted_get (lit "secret") (lit "4742")
           (lit "earnings")
           (mkWorld [json_response 200 (PDict [(lit "total", PInt 0)])] [])
           (r:=mkResponse 200 (Ok (PDict [(lit "total", PInt 0)])) (Ok []) (Ok []))
           (data:=PDict [(lit "total", PInt 0)]));
    reflexivity.
Defined.

(** ** The transcript resolver *)

Lemma returns_ret {W A} (P : A -> Prop) (a : A) : P a -> returns P (ret (W:=W) a).
Proof. intros H w w' b E. injection E as _ <-. exact H. Qed.

Lemma returns_raise {W A} (P : A -> Prop) (e : exn) :
  returns P (raise (W:=W) (A:=A) e).
Proof. intros w w' b E. discriminate E. Qed.

Lemma returns_bind {W A B} (Q : A -> Prop) (P : B -> Prop)
    (m : M W A) (k : A -> M W B) :
  returns Q m -> (forall a, Q a -> returns P (k a)) -> returns P (bind m k).
Proof.
  intros Hm Hk w w' b. unfold bind.
  destruct (m w) as [w1 [a|e]] eqn:E; [|discriminate].
  intros Hb. exact (Hk a (Hm _ _ _ E) _ _ _ Hb).
Qed.

Lemma returns_bind_any {W A B} (P : B -> Prop) (m : M W A) (k : A -> M W B) :
  (forall a, returns P (k a)) -> returns P (bind m k).
Proof.
  intros Hk. apply (returns_bind (Q:=fun _ => True)); [|auto].
  intros w w' a _. exact I.
Qed.

Lemma returns_try {W A} (P : A -> Prop) (m : M W A) (h : exn -> M W A) :
  returns P m -> (forall e, returns P (h e)) -> returns P (try_except m h).
Proof.
  intros Hm Hh w w' a. unfold try_except.
  destruct (m w) as [w1 [b|e]] eqn:E.
  - intros Hb. injection Hb as <- <-. exact (Hm _ _ _ E).
  - intros Hb. exact (Hh e _ _ _ Hb).
Qed.

Lemma returns_formatted_value (W : Type) (v : pyval) :
  returns is_formatted (lift (W:=W) (format_transcript_value v)).
Proof.
  intros w w' a E. unfold lift in E. injection E as _ E.
  destruct v; try discriminate. injection E as <-. eexists. reflexivity.
Qed.

Ltac returns_steps :=
  repeat first
    [ apply returns_raise
    | apply returns_ret; cbn; auto; try (eexists; reflexivity)
    | apply (returns_bind (Q:=is_formatted)); [apply returns_formatted_value | intros ? ?]
    | apply returns_bind_any; intro
    | apply returns_try; [|intro]
    | match goal with
      | |- returns _ (if ?b then _ else _) => destruct b
      | |- returns _ (match ?x with _ => _ end) => destruct x
      end ].

Section ResolverFacts.

Variable Session : Type.
Variable session_get : Session -> str -> headers -> dict -> Session * res Response.
Variable QUARTR_API_KEY : str.
Variable isdigit_char : char -> bool.

Local Notation "'api_hdrs'" := (api_headers QUARTR_API_KEY).
Local Notation "'hdrs_for'" := (headers_for QUARTR_API_KEY).
Local Notation "'run_fetch_raw'" := (fetch_raw session_get QUARTR_API_KEY).
Local Notation "'run_fallback'" := (app_url_fallback session_get QUARTR_API_KEY isdigit_char).
Local Notation "'run_process'" := (process_transcript session_get QUARTR_API_KEY isdigit_char).
Local Notation "'get_to'" := (after_get session_get).
Local Notation "'ans'" := (answer session_get).

Lemma decode_response_returns (r : Response) :
  returns option_formatted (decode_response (Session:=Session) r).
Proof. unfold decode_response. returns_steps. Qed.

Lemma fetch_raw_returns (raw : pyval) :
  returns option_formatted (run_fetch_raw raw).
Proof.
  unfold fetch_raw. returns_steps.
Qed.

Lemma app_url_fallback_returns (raw : pyval) (transcript_url : str) :
  returns (fun r => option_formatted (snd r)) (run_fallback raw transcript_url).
Proof. unfold app_url_fallback. returns_steps. Qed.

(** X5.  [process_transcript] never raises, and its result is either the
    empty string or a text produced by [format_transcript_text]; a
    non-empty result therefore ends with a period. *)
Theorem resolved_text_is_formatted (transcript_url : str) (transcripts : dict)
    (w : World Session) :
  exists r,
    snd (run_process transcript_url transcripts w) = Ok r
    /\ (r = [] \/ exists t, r = format_transcript_text t)
    /\ (r = [] \/ exists body, r = body ++ [DOT]).
Proof.
  destruct (process_transcript_run session_get QUARTR_API_KEY isdigit_char
              transcript_url transcripts w) as (w' & r & new & Hrun & _).
  exists r. rewrite Hrun. split; [reflexivity|].
  assert (H : r = [] \/ is_formatted r).
  { revert Hrun. generalize w w' r.
    change (returns (fun r => r = [] \/ is_formatted r)
              (run_process transcript_url transcripts)).
    unfold process_transcript.
    apply returns_try; [|intro; apply returns_ret; left; reflexivity].
    apply returns_bind_any. intros raw.
    eapply returns_bind; [apply (app_url_fallback_returns raw transcript_url)|].
    intros [raw' [f|]] Hf; cbn [snd fst] in *.
    - apply returns_ret. right. exact Hf.
    - eapply returns_bind; [apply (fetch_raw_returns raw')|].
      intros [f|] Hf'; apply returns_ret; [right; exact Hf' | left; reflexivity]. }
  split; [exact H|].
  destruct H as [H | (t & ->)]; [left; exact H | right].
  rewrite format_transcript_text_steps. eexists. reflexivity.
Qed.

(** X6.  One call of [process_transcript] makes at most two requests, and
    it makes two only on the third source: both go to the same derived API
    document URL and both carry the API key. *)
Theorem at_most_two_requests (transcript_url : str) (transcripts : dict)
    (w : World Session) :
  exists new,
    fetches (fst (run_process transcript_url transcripts w)) = fetches w ++ new
    /\ (List.length new <= 2)%nat
    /\ (forall f1 f2, new = [f1; f2] ->
          exists document_id,
            fetch_url f1 = API_DOCUMENT_URL ++ document_id
            /\ fetch_url f2 = API_DOCUMENT_URL ++ document_id
            /\ fetch_headers f1 = [(lit "X-Api-Key", QUARTR_API_KEY)]
            /\ fetch_headers f2 = [(lit "X-Api-Key", QUARTR_API_KEY)]).
Proof.
  unfold process_transcript, try_except. unfold bind at 1. unfold lift at 1.
  destruct (raw_url_of_transcripts transcripts) as [raw|e].
  2:{ exists []. cbn [fst]. rewrite app_nil_r. repeat split; [cbn; lia|discriminate]. }
  unfold bind at 1.
  destruct (app_url_fallback_cases session_get QUARTR_API_KEY isdigit_char
              raw transcript_url w) as [-> | [-> | (id & o & -> & Ho)]].
  - cbn [snd fst]. unfold bind.
    destruct (fetch_raw_cases session_get QUARTR_API_KEY raw w)
      as [-> | (u & f & -> & -> & _)].
    + exists []. cbn [fst]. rewrite app_nil_r. repeat split; [cbn; lia|discriminate].
    + eexists [_]. split; [destruct f; reflexivity|].
      split; [cbn; lia | discriminate].
  - exists []. cbn [fst]. rewrite app_nil_r. repeat split; [cbn; lia|discriminate].
  - set (u := API_DOCUMENT_URL ++ id) in *.
    set (w1 := get_to w u api_hdrs []) in *.
    destruct o as [[raw' [f|]]|e]; cbn [snd fst];
      unfold fallback_outcome in Ho.
    + eexists [_]. split; [reflexivity|]. split; [cbn; lia | discriminate].
    + subst raw'. unfold bind.
      destruct (fetch_raw_cases session_get QUARTR_API_KEY (PStr u) w1)
        as [-> | (u' & f & Hu & -> & _)].
      * eexists [_]. split; [reflexivity|]. split; [cbn; lia | discriminate].
      * injection Hu as <-.
        exists [mkFetch u api_hdrs [] (ans w u api_hdrs []);
                mkFetch u (hdrs_for u) [] (ans w1 u (hdrs_for u) [])].
        split.
        { destruct f; unfold ret; cbn [fst]; rewrite fetches_after_get;
            unfold w1; rewrite fetches_after_get, <- app_assoc; reflexivity. }
        split; [cbn; lia|].
        intros f1 f2 E. injection E as <- <-. exists id. cbn [fetch_url fetch_headers].
        unfold u. rewrite headers_for_api_document. auto.
    + eexists [_]. split; [reflexivity|]. split; [cbn; lia | discriminate].
Qed.

(** X7.  When the transcripts object names no raw URL and the page URL
    yields no document id (it is empty, it is not an app.quartr.com URL, it
    has fewer than two segments, or its second-to-last segment is not all
    digits), [process_transcript] makes no request and returns the empty
    string. *)
Theorem no_source_no_request (transcript_url : str) (transcripts : dict)
    (w : World Session) :
  no_raw_url transcripts = true ->
  derived_document_id isdigit_char transcript_url = None ->
  run_process transcript_url transcripts w = (w, Ok []).
Proof.
  intros Hno Hid.
  destruct (no_raw_url_selected transcripts Hno) as (raw & Hraw & Hfalse).
  unfold process_transcript, try_except. unfold bind at 1. unfold lift at 1.
  rewrite Hraw. unfold bind at 1. unfold app_url_fallback.
  unfold derived_document_id in Hid. rewrite Hfalse. cbn [negb andb].
  destruct (nonempty transcript_url && contains APP_HOST transcript_url).
  - destruct (index_from_end (split (lit "/") transcript_url) 2) as [id|];
      [|reflexivity].
    destruct (isdigit isdigit_char id); [discriminate|].
    unfold ret at 1. cbn [snd fst]. unfold bind, fetch_raw. rewrite Hfalse. reflexivity.
  - unfold ret at 1. cbn [snd fst]. unfold bind, fetch_raw. rewrite Hfalse. reflexivity.
Qed.

(** What a named raw URL answered with status 200 leads to: the decoded
    text, or the empty string when decoding gives none or fails. *)
Lemma named_url_decodes (transcript_url u : str) (transcripts : dict)
    (w : World Session) (r : Response) :
  raw_url_of_transcripts transcripts = Ok (PStr u) -> nonempty u = true ->
  ans w u (hdrs_for u) [] = Ok r -> status r = 200%Z ->
  snd (run_process transcript_url transcripts w)
  = Ok (match snd (decode_response r (get_to w u (hdrs_for u) [])) with
        | Ok (Some f) => f
        | _ => []
        end).
Proof.
  intros Hraw Hne Ha Hs.
  unfold process_transcript, try_except. unfold bind at 1. unfold lift at 1.
  rewrite Hraw. unfold bind at 1. unfold app_url_fallback.
  cbn [truthy]. rewrite Hne. cbn [negb andb]. unfold ret at 1. cbn [snd fst].
  unfold bind at 1. unfold fetch_raw, try_except, bind, lift.
  cbn [truthy py_in http_get_val]. rewrite Hne. fold (hdrs_for u).
  rewrite http_get_run, Ha, Hs. cbn [Z.eqb Pos.eqb].
  destruct (decode_response r (get_to w u (hdrs_for u) [])) as [w2 [[f|]|e]];
    reflexivity.
Qed.

(** X8.  The plain-text reading of a response is tried only after a JSON
    decoding error: a named raw URL answered with status 200 whose body
    fails to parse with JSONDecodeError gives the formatted body text (the
    empty string when the body is empty), while any other exception of the
    JSON reading gives the empty string whatever the body is. *)
Theorem plain_text_only_after_json_decode_error
    (transcript_url u t : str) (transcripts : dict) (w : World Session)
    (r : Response) (e : exn) :
  raw_url_of_transcripts transcripts = Ok (PStr u) -> nonempty u = true ->
  ans w u (hdrs_for u) [] = Ok r -> status r = 200%Z ->
  resp_json r = Raise e -> resp_text r = Ok t ->
  snd (run_process transcript_url transcripts w)
  = Ok (match e with
        | JSONDecodeError => if nonempty t then format_transcript_text t else []
        | _ => []
        end).
Proof.
  intros Hraw Hne Ha Hs Hj Ht.
  rewrite (named_url_decodes transcript_url transcripts w Hraw Hne Ha Hs).
  unfold decode_response, try_except, bind, lift. rewrite Hj.
  destruct e; try reflexivity. rewrite Ht. destruct (nonempty t); reflexivity.
Qed.

(** X9.  The two JSON layouts are guarded differently.  For a named raw
    URL answered with status 200 and a JSON object: a bare text entry (no
    transcript entry) is formatted even when it is the empty string, so the
    result is then a single period; a transcript object whose text is the
    empty string gives the empty result. *)
Theorem bare_text_is_formatted_unguarded
    (transcript_url u t : str) (transcripts d : dict) (w : World Session)
    (r : Response) :
  raw_url_of_transcripts transcripts = Ok (PStr u) -> nonempty u = true ->
  ans w u (hdrs_for u) [] = Ok r -> status r = 200%Z ->
  resp_json r = Ok (PDict d) ->
  (lookup (lit "transcript") d = None -> lookup (lit "text") d = Some (PStr t) ->
   snd (run_process transcript_url transcripts w) = Ok (format_transcript_text t))
  /\ (lookup (lit "transcript") d = None -> lookup (lit "text") d = Some (PStr []) ->
      snd (run_process transcript_url transcripts w) = Ok [DOT])
  /\ (forall td, lookup (lit "transcript") d = Some (PDict td) ->
                 lookup (lit "text") td = Some (PStr []) ->
                 snd (run_process transcript_url transcripts w) = Ok []).
Proof.
  intros Hraw Hne Ha Hs Hj.
  rewrite (named_url_decodes transcript_url transcripts w Hraw Hne Ha Hs).
  unfold decode_response, try_except, bind, lift. rewrite Hj. cbn [py_in py_getitem].
  split; [|split].
  - intros H1 H2. rewrite H1, H2. reflexivity.
  - intros H1 H2. rewrite H1, H2. reflexivity.
  - intros td H1 H2. rewrite H1. cbn [py_get]. rewrite H2. reflexivity.
Qed.

(** X29.  The third source at work: when the transcripts object names no
    raw URL, the page URL is an app.quartr.com URL whose second-to-last
    segment is all digits, and the derived API document is answered with
    status 200 and a JSON object whose transcript entry holds a non-empty
    text, [process_transcript] returns that text formatted after this one
    request. *)
Theorem third_source_success (transcript_url document_id t : str)
    (transcripts d td : dict) (w : World Session) (r : Response) :
  no_raw_url transcripts = true ->
  contains APP_HOST transcript_url = true ->
  index_from_end (split (lit "/") transcript_url) 2 = Some document_id ->
  isdigit isdigit_char document_id = true ->
  ans w (API_DOCUMENT_URL ++ document_id) api_hdrs [] = Ok r ->
  status r = 200%Z ->
  resp_json r = Ok (PDict d) ->
  lookup (lit "transcript") d = Some (PDict td) ->
  lookup (lit "text") td = Some (PStr t) ->
  nonempty t = true ->
  run_process transcript_url transcripts w
  = (get_to w (API_DOCUMENT_URL ++ document_id) api_hdrs [],
     Ok (format_transcript_text t)).
Proof.
  intros Hno Happ Hidx Hdig Ha Hs Hj Hd Ht Hne.
  destruct (no_raw_url_selected transcripts Hno) as (raw & Hraw & Hfalse).
  unfold process_transcript, try_except. unfold bind at 1. unfold lift at 1.
  rewrite Hraw. unfold bind at 1. unfold app_url_fallback.
  rewrite Hfalse, (contains_app_host_nonempty _ Happ), Happ, Hidx, Hdig.
  cbn [negb andb]. unfold bind at 1. rewrite http_get_run, Ha, Hs.
  cbn [Z.eqb Pos.eqb]. unfold bind, lift, ret. rewrite Hj.
  assert (Htr : truthy (PDict d) = true) by (destruct d; [discriminate Hd | reflexivity]).
  rewrite Htr. cbn [py_in py_getitem]. rewrite Hd. cbn [py_get]. rewrite Ht.
  cbn [truthy]. rewrite Hne. reflexivity.
Qed.

End ResolverFacts.

Lemma third_source_success_witness :
  process_transcript scripted_get (lit "secret") ascii_isdigit_char
    (lit "https://app.quartr.com/events/12345/transcript") []
    (mkWorld
       [json_response 200
          (PDict [(lit "transcript", PDict [(lit "text", PStr (lit "Hi. All"))])])] [])
  = (mkWorld []
       [mkFetch (lit "https://api.quartr.com/public/v1/transcripts/document/12345")
          [(lit "X-Api-Key", lit "secret")] []
          (json_response 200
             (PDict [(lit "transcript", PDict [(lit "text", PStr (lit "Hi. All"))])]))],
     Ok (lit "Hi." ++ [NL; NL] ++ lit "All.")).
Proof.
  rewrite (third_source_success scripted_get (lit "secret") ascii_isdigit_char
             (lit "https://app.quartr.com/events/12345/transcript")
             (document_id:=lit "12345") (t:=lit "Hi. All") []
             (d:=[(lit "transcript", PDict [(lit "text", PStr (lit "Hi. All"))])])
             (td:=[(lit "text", PStr (lit "Hi. All"))])
             (mkWorld
                [json_response 200
                   (PDict [(lit "transcript",
                            PDict [(lit "text", PStr (lit "Hi. All"))])])] [])
             (r:=mkResponse 200
                   (Ok (PDict [(lit "transcript",
                                PDict [(lit "text", PStr (lit "Hi. All"))])]))
                   (Ok []) (Ok [])));
    reflexivity.
Defined.

Lemma no_source_no_request_witness :
  process_transcript scripted_get (lit "secret") ascii_isdigit_char
    (lit "https://app.quartr.com/events/latest/transcript")
    [(lit "transcriptUrl", PStr [])] (mkWorld [json_response 200 PNone] [])
  = (mkWorld [json_response 200 PNone] [], Ok []).
Proof.
  apply (no_source_no_request scripted_get (lit "secret") ascii_isdigit_char
           (lit "https://app.quartr.com/events/latest/transcript")
           [(lit "transcriptUrl", PStr [])]
           (mkWorld [json_response 200 PNone] [])); reflexivity.
Defined.

Lemma plain_text_only_after_json_decode_error_witness :
  snd (process_transcript scripted_get (lit "secret") ascii_isdigit_char []
         [(lit "transcriptUrl", PStr URL_A)]
         (mkWorld [Ok (mkResponse 200 (Raise JSONDecodeError)
                         (Ok (lit "Good morning. Thanks")) (Ok []))] []))
  = Ok (lit "Good morning." ++ [NL; NL] ++ lit "Thanks.").
Proof.
  apply (plain_text_only_after_json_decode_error scripted_get (lit "secret")
           ascii_isdigit_char [] (u:=URL_A) (t:=lit "Good morning. Thanks")
           [(lit "transcriptUrl", PStr URL_A)]
           (mkWorld [Ok (mkResponse 200 (Raise JSONDecodeError)
                           (Ok (lit "Good morning. Thanks")) (Ok []))] [])
           (r:=mkResponse 200 (Raise JSONDecodeError)
                 (Ok (lit "Good morning. Thanks")) (Ok []))
           (e:=JSONDecodeError)); reflexivity.
Defined.

Lemma bare_text_is_formatted_unguarded_witness :
  snd (process_transcript scripted_get (lit "secret") ascii_isdigit_char []
         [(lit "transcriptUrl", PStr URL_A)]
         (mkWorld [json_response 200 (PDict [(lit "text", PStr [])])] []))
  = Ok [DOT].
Proof.
  apply (proj1 (proj2
           (bare_text_is_formatted_unguarded scripted_get (lit "secret")
              ascii_isdigit_char [] (u:=URL_A) []
              [(lit "transcriptUrl", PStr URL_A)]
              (d:=[(lit "text", PStr [])])
              (mkWorld [json_response 200 (PDict [(lit "text", PStr [])])] [])
              (r:=mkResponse 200 (Ok (PDict [(lit "text", PStr [])])) (Ok []) (Ok []))
              eq_refl eq_refl eq_refl eq_refl eq_refl))); reflexivity.
Defined.

(** ** The text formatter *)

Lemma chain_weaken (R R' : char -> char -> bool) (s : str) :
  (forall a b, R a b = true -> R' a b = true) ->
  chain R s = true -> chain R' s = true.
Proof.
  intros HR. induction s as [|a r IH]; [reflexivity|]. intros H.
  apply chain_cons; [|exact (IH (chain_tail _ _ _ H))].
  destruct r as [|b r]; [reflexivity|]. cbn [link last].
  cbn [chain] in H. apply andb_true_iff in H as [H _]. exact (HR _ _ H).
Qed.

Lemma chain_no_escaped_nl (s : str) :
  chain not_escaped_nl s = true -> contains ESCAPED_NL s = false.
Proof.
  induction s as [|a r IH]; [reflexivity|]. intros H.
  cbn [contains]. rewrite (IH (chain_tail _ _ _ H)), orb_false_r.
  destruct r as [|b r]; unfold ESCAPED_NL; cbn [starts_with].
  - apply andb_false_r.
  - cbn [chain] in H. apply andb_true_iff in H as [H _].
    unfold not_escaped_nl in H. apply negb_true_iff in H.
    rewrite andb_true_r, (N.eqb_sym BACKSLASH a), (N.eqb_sym LOWER_N b). exact H.
Qed.

(** X10.  The output of [format_transcript_text] never contains the
    two-character escape backslash, n: every occurrence in the input is
    replaced and the later steps create none. *)
Theorem format_output_has_no_escaped_newline (s : str) :
  contains ESCAPED_NL (format_transcript_text s) = false.
Proof.
  rewrite format_transcript_text_steps.
  apply chain_no_escaped_nl, paragraphs_of_chain, format_sentences_clean.
Qed.

Lemma paragraphs_of_head (u : str) (l : list str) :
  nonempty u = true -> head_nonspace u = true ->
  head_nonspace (paragraphs_of (u :: l)) = true.
Proof.
  intros Hne Hh. destruct u as [|a u]; [discriminate|].
  unfold paragraphs_of. destruct l; [exact Hh|].
  rewrite join_cons by discriminate. exact Hh.
Qed.

Lemma paragraphs_of_tidy (l : list str) :
  Forall (fun u => clean u = true) l ->
  forallb space_newline_or_text (paragraphs_of l) = true
  /\ chain tidy_neighbours (paragraphs_of l) = true.
Proof.
  intros H. induction H as [|u l Hu Hl [IH1 IH2]]; [split; reflexivity|].
  destruct (clean_parts u Hu) as (Hne & _ & _ & Hss & Hh & _).
  unfold single_spaced in Hss. apply andb_true_iff in Hss as [Hq Hch].
  assert (Hq' : forallb space_newline_or_text u = true).
  { rewrite forallb_forall in *. intros c Hc. specialize (Hq c Hc).
    unfold space_newline_or_text. unfold space_or_text in Hq. rewrite Hq. reflexivity. }
  assert (Hch' : chain tidy_neighbours u = true).
  { apply (chain_weaken not_both_space); [|exact Hch].
    intros a b E. unfold tidy_neighbours. unfold not_both_space in E.
    rewrite E. reflexivity. }
  destruct u as [|a u]; [discriminate|].
  assert (Hlink : forall y, link tidy_neighbours (a :: u) (DOT :: y) = true).
  { intros y. cbn [link]. unfold tidy_neighbours.
    change (isspace DOT) with false. rewrite andb_false_r. reflexivity. }
  destruct l as [|u' l].
  - unfold paragraphs_of. cbn [join]. split.
    + rewrite forallb_app, Hq'. reflexivity.
    + rewrite chain_app, Hch', Hlink. reflexivity.
  - rewrite paragraphs_of_cons. split.
    + rewrite !forallb_app, Hq', IH1. reflexivity.
    + rewrite chain_app, Hch'. unfold PARA_SEP. cbn [app]. rewrite Hlink.
      rewrite andb_true_r. cbn [andb].
      repeat (apply chain_cons; [try reflexivity|]); [|exact IH2].
      inversion Hl as [|? ? Hu' _]; subst.
      destruct (clean_parts u' Hu') as (Hne' & _ & _ & _ & Hh' & _).
      pose proof (paragraphs_of_head u' l Hne' Hh') as Hp.
      destruct (paragraphs_of (u' :: l)) as [|b y]; [reflexivity|].
      cbn [link last]. unfold tidy_neighbours. cbn [head_nonspace] in Hp.
      apply negb_true_iff in Hp. rewrite Hp, andb_false_r. reflexivity.
Qed.

(** X11.  Whitespace is normalised in the output of
    [format_transcript_text]: every whitespace character of the output is
    a space or a newline (tabs, carriage returns and the like are gone),
    and two whitespace characters are neighbours only as the two newlines
    of a paragraph break, so spaces are single and never touch a newline. *)
Theorem format_output_whitespace (s : str) :
  forallb (fun c => negb (isspace c) || N.eqb c SP || N.eqb c NL)
          (format_transcript_text s) = true
  /\ chain (fun a b => negb (isspace a && isspace b)
                       || (N.eqb a NL && N.eqb b NL))
           (format_transcript_text s) = true.
Proof.
  rewrite format_transcript_text_steps.
  exact (paragraphs_of_tidy (format_sentences_clean s)).
Qed.

(** *** A text without period *)

Lemma last_nonspace_app (x y : str) :
  nonempty y = true -> last_nonspace (x ++ y) = last_nonspace y.
Proof.
  intros Hy. induction x as [|a x IH]; [reflexivity|].
  cbn [app]. destruct (x ++ y) eqn:E; [|exact IH].
  apply app_eq_nil in E as [_ ->]. discriminate.
Qed.

Lemma word_trimmed (w : str) :
  nonempty w = true -> forallb (fun c => negb (isspace c)) w = true ->
  head_nonspace w = true /\ last_nonspace w = true.
Proof.
  intros Hne H. split.
  - destruct w as [|a w]; [reflexivity|]. cbn in *.
    apply andb_true_iff in H as [H _]. exact H.
  - induction w as [|a w IH]; [reflexivity|].
    cbn [forallb] in H. apply andb_true_iff in H as [Ha Hw].
    destruct w as [|b w]; [exact Ha|]. exact (IH eq_refl Hw).
Qed.

(** The collapsed text has no whitespace at either end. *)
Lemma collapse_trimmed (t : str) :
  head_nonspace (collapse t) = true /\ last_nonspace (collapse t) = true.
Proof.
  unfold collapse. pose proof (split_ws_words t) as H.
  induction H as [|w l (Hne & Hw) Hl [IH1 IH2]]; [split; reflexivity|].
  destruct (word_trimmed w Hne Hw) as [Hh Hlast].
  destruct l as [|w' l]; [split; assumption|].
  rewrite join_cons by discriminate. split.
  - destruct w; [discriminate | exact Hh].
  - rewrite last_nonspace_app.
    + rewrite last_nonspace_app; [exact IH2|].
      inversion Hl as [|? ? (Hne' & _) _]; subst.
      destruct w'; [discriminate|]. destruct l; [reflexivity|].
      rewrite join_cons by discriminate. reflexivity.
    + reflexivity.
Qed.

Lemma replace_escaped_nl_forallb (q : char -> bool) (s : str) :
  q NL = true -> forallb q s = true ->
  forallb q (replace ESCAPED_NL [NL] s) = true.
Proof.
  intros Hq.
  assert (H : forall n s, (List.length s <= n)%nat -> forallb q s = true ->
                          forallb q (replace ESCAPED_NL [NL] s) = true).
  { clear s. induction n as [|n IH]; intros s Hlen Hs.
    - destruct s; [reflexivity | cbn in Hlen; lia].
    - destruct s as [|a [|b r]];
        [reflexivity | rewrite replace_escaped_nl_one; exact Hs|].
      cbn [List.length] in Hlen. rewrite replace_escaped_nl_step.
      cbn [forallb] in Hs. apply andb_true_iff in Hs as [Ha Hs].
      destruct (N.eqb a BACKSLASH && N.eqb b LOWER_N).
      + cbn [forallb]. rewrite Hq. apply IH; [lia|].
        apply andb_true_iff in Hs as [_ Hs]. exact Hs.
      + cbn [forallb]. rewrite Ha. apply IH; [cbn [List.length]; lia | exact Hs]. }
  exact (H (List.length s) s (le_n _)).
Qed.

(** X12.  A text without any period becomes a single paragraph: the
    result of [format_transcript_text] is the text with its escaped
    newlines replaced and its whitespace collapsed to single spaces,
    followed by one period. *)
Theorem format_without_period (s : str) :
  forallb (fun c => negb (N.eqb DOT c)) s = true ->
  format_transcript_text s
  = join [SP] (split_ws (replace ESCAPED_NL [NL] s)) ++ [DOT].
Proof.
  intros Hs. rewrite format_transcript_text_steps.
  fold (collapse (replace ESCAPED_NL [NL] s)).
  set (t := collapse (replace ESCAPED_NL [NL] s)).
  assert (Ht : forallb not_dot t = true).
  { unfold t. apply collapse_forallb; [reflexivity|].
    apply replace_escaped_nl_forallb; [reflexivity | exact Hs]. }
  destruct (collapse_trimmed (replace ESCAPED_NL [NL] s)) as [Hh Hl].
  fold t in Hh, Hl.
  rewrite sentences_of_split_by, (split_by_whole (N.eqb DOT) t Ht).
  cbn [filter]. rewrite (strip_fixed t Hh Hl).
  destruct (nonempty t) eqn:Hne; cbn [List.map].
  - rewrite (strip_fixed t Hh Hl). reflexivity.
  - destruct t; [reflexivity | discriminate].
Qed.

Lemma format_without_period_witness :
  format_transcript_text (lit "  good   morning everyone ")
  = lit "good morning everyone.".
Proof.
  apply (format_without_period (lit "  good   morning everyone ")). reflexivity.
Defined.

(** *** Paragraphs of the output *)

Lemma split_blank_line_step (x : char) (r : str) :
  N.eqb NL x = false ->
  split [NL; NL] (x :: r) = cons_head x (split [NL; NL] r).
Proof.
  intros H. unfold split. cbn [split_from starts_with]. rewrite H. reflexivity.
Qed.

Lemma split_blank_line_cons (r : str) :
  exists w ws, split [NL; NL] r = w :: ws.
Proof.
  unfold split. generalize 0%nat. induction r as [|c r IH]; intros k.
  - exists [], []. reflexivity.
  - cbn [split_from]. destruct k as [|k]; [|apply IH].
    destruct (starts_with [NL; NL] (c :: r)); [eexists _, _; reflexivity|].
    destruct (IH 0%nat) as (w & ws & ->). eexists _, _; reflexivity.
Qed.

(** A text without newline, followed by a blank line, is the first piece. *)
Lemma split_blank_line_app (u rest : str) :
  forallb (fun c => negb (N.eqb NL c)) u = true ->
  split [NL; NL] (u ++ NL :: NL :: rest) = u :: split [NL; NL] rest.
Proof.
  induction u as [|a u IH]; intros H.
  - reflexivity.
  - cbn [forallb] in H. apply andb_true_iff in H as [Ha Hu].
    apply negb_true_iff in Ha. cbn [app].
    rewrite (split_blank_line_step a _ Ha), (IH Hu). reflexivity.
Qed.

Lemma split_blank_line_whole (u : str) :
  forallb (fun c => negb (N.eqb NL c)) u = true -> split [NL; NL] u = [u].
Proof.
  induction u as [|a u IH]; intros H; [reflexivity|].
  cbn [forallb] in H. apply andb_true_iff in H as [Ha Hu].
  apply negb_true_iff in Ha.
  rewrite (split_blank_line_step a _ Ha), (IH Hu). reflexivity.
Qed.

Lemma sentence_has_no_newline (u : str) :
  clean u = true -> forallb (fun c => negb (N.eqb NL c)) (u ++ [DOT]) = true.
Proof.
  intros H. destruct (clean_parts u H) as (_ & _ & _ & Hss & _).
  unfold single_spaced in Hss. apply andb_true_iff in Hss as [Hq _].
  rewrite forallb_app, andb_true_r. rewrite forallb_forall in *.
  intros c Hc. specialize (Hq c Hc). unfold space_or_text in Hq.
  destruct (N.eqb_spec NL c) as [<-|]; [discriminate Hq | reflexivity].
Qed.

Lemma split_paragraphs_of (u : str) (l : list str) :
  Forall (fun u => clean u = true) (u :: l) ->
  split [NL; NL] (paragraphs_of (u :: l)) = List.map (fun v => v ++ [DOT]) (u :: l).
Proof.
  revert u. induction l as [|u' l IH]; intros u H.
  - inversion H as [|? ? Hu _]; subst. unfold paragraphs_of. cbn [join List.map].
    apply split_blank_line_whole, sentence_has_no_newline, Hu.
  - inversion H as [|? ? Hu Hl]; subst.
    rewrite paragraphs_of_cons.
    replace (u ++ PARA_SEP ++ paragraphs_of (u' :: l))
      with ((u ++ [DOT]) ++ NL :: NL :: paragraphs_of (u' :: l))
      by (rewrite <- app_assoc; reflexivity).
    rewrite split_blank_line_app by (apply sentence_has_no_newline, Hu).
    rewrite (IH u' Hl). reflexivity.
Qed.

(** X13.  Splitting the output of [format_transcript_text] at blank lines,
    as [create_pdf] does, gives one piece per sentence, each a sentence
    followed by its period; a sentence is not empty, contains no period and
    no whitespace but single spaces, and has no space at either end.  For
    an input without sentence the only piece is a period. *)
Theorem format_output_paragraphs (s : str) :
  exists sentences : list str,
    Forall (fun u => clean u = true) sentences
    /\ split [NL; NL] (format_transcript_text s)
       = match sentences with
         | [] => [[DOT]]
         | _ :: _ => List.map (fun u => u ++ [DOT]) sentences
         end.
Proof.
  rewrite format_transcript_text_steps.
  pose proof (format_sentences_clean s) as H.
  set (l := sentences_of (collapse (replace ESCAPED_NL [NL] s))) in *.
  exists l. split; [exact H|].
  destruct l as [|u l]; [reflexivity|]. exact (split_paragraphs_of H).
Qed.

(** ** The renderer *)

Section RendererFacts.

Variable paragraph_error : str -> StyleName -> option exn.
Variable doc_build : list Flowable -> res bytes.

(** The loop adds, in order, what each paragraph contributes, and never
    raises. *)
Lemma add_paragraphs_story (paragraphs : list str) :
  forall (story : list Flowable) (log : EngineLog),
    exists calls,
      add_paragraphs paragraph_error paragraphs story log
      = (log ++ calls,
         Ok (story ++ flat_map (body_flowables paragraph_error) paragraphs)).
Proof.
  induction paragraphs as [|para rest IH]; intros story log.
  - exists []. cbn. rewrite !app_nil_r. reflexivity.
  - cbn [add_paragraphs flat_map]. unfold body_flowables at 1.
    destruct (nonempty (strip para)).
    + unfold bind at 1. unfold try_except, bind, new_paragraph, new_spacer, ret.
      destruct (paragraph_error (xml_escape (strip para)) CustomText) as [e|].
      * destruct (IH story (log ++ [NewParagraph (xml_escape (strip para)) CustomText]))
          as (calls & ->).
        eexists (_ :: calls). rewrite <- app_assoc. reflexivity.
      * destruct (IH (story ++ [Paragraph (xml_escape (strip para)) CustomText;
                                 Spacer 1 6])
                    ((log ++ [NewParagraph (xml_escape (strip para)) CustomText])
                       ++ [NewSpacer 1 6])) as (calls & ->).
        eexists (_ :: _ :: calls). rewrite <- !app_assoc. reflexivity.
    + destruct (IH story log) as (calls & ->). exists calls. reflexivity.
Qed.

(** The shape of a run with a non-empty text whose header is accepted. *)
Lemma create_pdf_run (company_name event_title event_date transcript_text : str)
    (log : EngineLog) :
  nonempty transcript_text = true ->
  paragraph_error (header_text_of company_name event_title event_date)
                  CustomHeader = None ->
  let story :=
    [Paragraph (header_text_of company_name event_title event_date) CustomHeader;
     Spacer 1 30]
    ++ flat_map (body_flowables paragraph_error) (split [NL; NL] transcript_text) in
  exists calls,
    create_pdf paragraph_error doc_build company_name event_title event_date
      transcript_text log
    = (log ++ SETUP_CALLS ++ calls ++ [Build story],
       Ok (match doc_build story with Ok pdf_data => pdf_data | Raise _ => [] end)).
Proof.
  intros Hne Hh. cbv zeta. unfold create_pdf. rewrite Hne. cbn [negb].
  unfold bind at 1 2 3 4 5. unfold engine_call, new_paragraph.
  fold (header_text_of company_name event_title event_date). rewrite Hh.
  unfold bind at 1. unfold new_spacer. unfold bind at 1.
  match goal with
  | |- context [add_paragraphs _ ?ps ?st ?lg] =>
      destruct (add_paragraphs_story ps st lg) as (calls & ->)
  end.
  unfold try_except, build.
  exists (NewParagraph (header_text_of company_name event_title event_date)
            CustomHeader :: NewSpacer 1 30 :: calls).
  unfold SETUP_CALLS.
  destruct (doc_build _); unfold ret; rewrite <- !app_assoc; reflexivity.
Qed.

(** X14.  When the text is not empty and the header paragraph is accepted,
    [create_pdf] returns normally.  The story it builds is the header, a
    30-unit spacer and then, in the order of the text, each paragraph that
    is not blank and whose escaped markup is accepted, followed by a 6-unit
    spacer; blank and rejected paragraphs are skipped.  The build is the
    last engine call, and the result is the built document, or the empty
    byte sequence when the build raises. *)
Theorem create_pdf_story (company_name event_title event_date transcript_text : str)
    (log : EngineLog) :
  nonempty transcript_text = true ->
  paragraph_error
    (header_markup (xml_escape company_name) (xml_escape event_title) event_date)
    CustomHeader = None ->
  let story :=
    [Paragraph
       (header_markup (xml_escape company_name) (xml_escape event_title) event_date)
       CustomHeader;
     Spacer 1 30]
    ++ flat_map
         (fun para =>
            if nonempty (strip para) then
              match paragraph_error (xml_escape (strip para)) CustomText with
              | None => [Paragraph (xml_escape (strip para)) CustomText; Spacer 1 6]
              | Some _ => []
              end
            else [])
         (split [NL; NL] transcript_text) in
  exists calls,
    create_pdf paragraph_error doc_build company_name event_title event_date
      transcript_text log
    = (log ++ calls ++ [Build story],
       Ok (match doc_build story with Ok pdf_data => pdf_data | Raise _ => [] end)).
Proof.
  intros Hne Hh. cbv zeta.
  destruct (@create_pdf_run company_name event_title event_date transcript_text log
              Hne Hh) as (calls & E).
  exists (SETUP_CALLS ++ calls). rewrite <- app_assoc. exact E.
Qed.

(** X15.  The header paragraph is built outside any handler: when the
    engine rejects its markup (the event date is inserted unescaped),
    [create_pdf] raises that exception to the caller, after the document
    template, the style sheet and the two styles were created and before any
    body paragraph or build. *)
Theorem create_pdf_header_error_escapes
    (company_name event_title event_date transcript_text : str)
    (log : EngineLog) (e : exn) :
  nonempty transcript_text = true ->
  paragraph_error
    (header_markup (xml_escape company_name) (xml_escape event_title) event_date)
    CustomHeader = Some e ->
  create_pdf paragraph_error doc_build company_name event_title event_date
    transcript_text log
  = (log ++ [NewSimpleDocTemplate 72 72 72 72; GetSampleStyleSheet;
             NewParagraphStyle CustomHeader 14; NewParagraphStyle CustomText 10;
             NewParagraph
               (header_markup (xml_escape company_name) (xml_escape event_title)
                  event_date) CustomHeader],
     Raise e).
Proof.
  intros Hne Hh. unfold create_pdf. rewrite Hne. cbn [negb].
  unfold bind at 1 2 3 4 5. unfold engine_call, new_paragraph. rewrite Hh.
  rewrite <- !app_assoc. reflexivity.
Qed.

(** A sentence with its period is a paragraph that needs no trimming. *)
Lemma sentence_paragraph (u : str) :
  clean u = true ->
  body_flowables paragraph_error (u ++ [DOT])
  = match paragraph_error (xml_escape (u ++ [DOT])) CustomText with
    | None => [Paragraph (xml_escape (u ++ [DOT])) CustomText; Spacer 1 6]
    | Some _ => []
    end.
Proof.
  intros H. destruct (clean_parts u H) as (Hne & _ & _ & _ & Hh & _).
  assert (E : strip (u ++ [DOT]) = u ++ [DOT]).
  { apply strip_fixed.
    - destruct u; [discriminate | exact Hh].
    - apply last_nonspace_snoc. }
  unfold body_flowables. rewrite E. destruct u; reflexivity.
Qed.

(** X16.  Rendering a formatted transcript: [create_pdf] applied to the
    output of [format_transcript_text] never takes the empty-text exit (an
    input without sentence is rendered as the single paragraph made of a
    period), and with an accepted header the story is the header, the
    spacer and then one paragraph per sentence, the sentence with its
    period escaped, in order, each followed by its spacer (a sentence whose
    markup is rejected is skipped). *)
Theorem create_pdf_of_formatted_text
    (company_name event_title event_date s : str) (log : EngineLog) :
  paragraph_error
    (header_markup (xml_escape company_name) (xml_escape event_title) event_date)
    CustomHeader = None ->
  exists (sentences : list str) (calls : list EngineCall),
    Forall (fun u => clean u = true) sentences
    /\ let story :=
         [Paragraph
            (header_markup (xml_escape company_name) (xml_escape event_title)
               event_date) CustomHeader;
          Spacer 1 30]
         ++ flat_map
              (fun p =>
                 match paragraph_error (xml_escape p) CustomText with
                 | None => [Paragraph (xml_escape p) CustomText; Spacer 1 6]
                 | Some _ => []
                 end)
              (match sentences with
               | [] => [[DOT]]
               | _ :: _ => List.map (fun u => u ++ [DOT]) sentences
               end) in
       create_pdf paragraph_error doc_build company_name event_title event_date
         (format_transcript_text s) log
       = (log ++ NewSimpleDocTemplate 72 72 72 72 :: calls ++ [Build story],
          Ok (match doc_build story with Ok pdf_data => pdf_data | Raise _ => [] end)).
Proof.
  intros Hh.
  assert (Hne : nonempty (format_transcript_text s) = true).
  { rewrite format_transcript_text_steps. unfold paragraphs_of.
    destruct (join PARA_SEP _); reflexivity. }
  destruct (@create_pdf_run company_name event_title event_date
              (format_transcript_text s) log Hne Hh) as (calls & E).
  cbv zeta in E.
  pose proof (format_sentences_clean s) as Hs.
  rewrite format_transcript_text_steps in E at 2 3.
  set (l := sentences_of (collapse (replace ESCAPED_NL [NL] s))) in *.
  exists l, (GetSampleStyleSheet :: NewParagraphStyle CustomHeader 14
               :: NewParagraphStyle CustomText 10 :: calls).
  split; [exact Hs|]. cbv zeta.
  rewrite E. unfold SETUP_CALLS. cbn [app].
  assert (Hbody :
    flat_map (body_flowables paragraph_error) (split [NL; NL] (paragraphs_of l))
    = flat_map
        (fun p =>
           match paragraph_error (xml_escape p) CustomText with
           | None => [Paragraph (xml_escape p) CustomText; Spacer 1 6]
           | Some _ => []
           end)
        (match l with
         | [] => [[DOT]]
         | _ :: _ => List.map (fun u => u ++ [DOT]) l
         end)).
  { destruct l as [|u l']; [reflexivity|].
    rewrite (split_paragraphs_of Hs).
    clear E. induction Hs as [|v l0 Hv Hl IH]; [reflexivity|].
    cbn [List.map flat_map]. rewrite (sentence_paragraph v Hv), IH. reflexivity. }
  rewrite Hbody. reflexivity.
Qed.

End RendererFacts.

Lemma create_pdf_story_witness :
  exists calls,
    create_pdf (fun _ _ => None) (fun _ => Ok (lit "%PDF")) (lit "Acme")
      (lit "Q1") (lit "2024-05-01") (lit "Hello." ++ [NL; NL] ++ lit "World.") []
    = ([] ++ calls
         ++ [Build
               ([Paragraph
                   (header_markup (xml_escape (lit "Acme")) (xml_escape (lit "Q1"))
                      (lit "2024-05-01")) CustomHeader;
                 Spacer 1 30;
                 Paragraph (lit "Hello.") CustomText; Spacer 1 6;
                 Paragraph (lit "World.") CustomText; Spacer 1 6])],
       Ok (lit "%PDF")).
Proof.
  apply (create_pdf_story (fun _ _ => None) (fun _ => Ok (lit "%PDF")) (lit "Acme")
           (lit "Q1") (lit "2024-05-01") (lit "Hello." ++ [NL; NL] ++ lit "World.") []);
    reflexivity.
Defined.

Lemma create_pdf_header_error_escapes_witness :
  snd (create_pdf
         (fun t style => if contains (lit "<2024>") t then Some (OtherError 1) else None)
         (fun _ => Ok (lit "%PDF")) (lit "Acme") (lit "Q1") (lit "<2024>")
         (lit "Hello.") [])
  = Raise (OtherError 1).
Proof.
  rewrite (create_pdf_header_error_escapes
             (fun t style => if contains (lit "<2024>") t then Some (OtherError 1)
                             else None)
             (fun _ => Ok (lit "%PDF")) (lit "Acme") (lit "Q1") (lit "<2024>")
             (lit "Hello.") [] (e:=OtherError 1)); reflexivity.
Defined.

Lemma create_pdf_of_formatted_text_witness :
  exists (sentences : list str) (calls : list EngineCall),
    Forall (fun u => clean u = true) sentences
    /\ fst (create_pdf (fun _ _ => None) (fun _ => Ok (lit "%PDF")) (lit "Acme")
              (lit "Q1") (lit "2024-05-01") (format_transcript_text (lit " .. ")) [])
       = [] ++ NewSimpleDocTemplate 72 72 72 72 :: calls
            ++ [Build
                  ([Paragraph
                      (header_markup (xml_escape (lit "Acme")) (xml_escape (lit "Q1"))
                         (lit "2024-05-01")) CustomHeader;
                    Spacer 1 30]
                   ++ flat_map
                        (fun p => [Paragraph (xml_escape p) CustomText; Spacer 1 6])
                        (match sentences with
                         | [] => [[DOT]]
                         | _ :: _ => List.map (fun u => u ++ [DOT]) sentences
                         end))].
Proof.
  destruct (create_pdf_of_formatted_text (fun _ _ => None) (fun _ => Ok (lit "%PDF"))
              (lit "Acme") (lit "Q1") (lit "2024-05-01") (lit " .. ") [] eq_refl)
    as (sentences & calls & Hs & E).
  exists sentences, calls. split; [exact Hs|]. cbv zeta in E. rewrite E. reflexivity.
Defined.

(** ** Escaping *)

(** X17.  [xml_escape] leaves a text without ampersand and angle bracket
    as it is. *)
Theorem xml_escape_plain_text (s : str) :
  forallb plain_char s = true -> xml_escape s = s.
Proof.
  intros H. rewrite xml_escape_char_by_char.
  induction s as [|c r IH]; [reflexivity|].
  cbn [forallb] in H. apply andb_true_iff in H as [Hc Hr].
  cbn [flat_map]. rewrite (IH Hr).
  unfold plain_char in Hc.
  apply andb_true_iff in Hc as [Hc Hg]. apply andb_true_iff in Hc as [Ha Hl].
  apply negb_true_iff in Ha, Hl, Hg.
  unfold escape_char. rewrite Ha, Hl, Hg. reflexivity.
Qed.

Lemma xml_escape_plain_text_witness :
  xml_escape (lit "Revenue grew 4% (Q1 2024)") = lit "Revenue grew 4% (Q1 2024)".
Proof.
  apply (xml_escape_plain_text (lit "Revenue grew 4% (Q1 2024)")). reflexivity.
Defined.

Lemma escape_char_cases (c : char) :
  (plain_char c = true /\ escape_char c = [c])
  \/ (c = AMP /\ escape_char c = lit "&amp;")
  \/ (c = LT /\ escape_char c = lit "&lt;")
  \/ (c = GT /\ escape_char c = lit "&gt;").
Proof.
  unfold escape_char, plain_char.
  destruct (N.eqb_spec c AMP) as [->|]; [right; left; auto|].
  destruct (N.eqb_spec c LT) as [->|]; [right; right; left; auto|].
  destruct (N.eqb_spec c GT) as [->|]; [right; right; right; auto|].
  left. auto.
Qed.

Lemma escaped_injective (s t : str) :
  flat_map escape_char s = flat_map escape_char t -> s = t.
Proof.
  revert t. induction s as [|a s IH]; intros [|b t] H.
  - reflexivity.
  - cbn [flat_map] in H.
    destruct (escape_char_cases b) as [[_ E] | [[_ E] | [[_ E] | [_ E]]]];
      rewrite E in H; discriminate H.
  - cbn [flat_map] in H.
    destruct (escape_char_cases a) as [[_ E] | [[_ E] | [[_ E] | [_ E]]]];
      rewrite E in H; discriminate H.
  - cbn [flat_map] in H.
    destruct (escape_char_cases a) as [[Pa Ea] | [[-> Ea] | [[-> Ea] | [-> Ea]]]];
      destruct (escape_char_cases b) as [[Pb Eb] | [[-> Eb] | [[-> Eb] | [-> Eb]]]];
      rewrite ?Ea, ?Eb in H; cbn in H;
      try discriminate H;
      try (injection H as H; f_equal; exact (IH t H));
      try (injection H as -> H; f_equal; exact (IH t H));
      try (injection H as -> H; vm_compute in Pa; discriminate Pa);
      try (injection H as <- H; vm_compute in Pb; discriminate Pb).
Qed.

(** X18.  [xml_escape] loses nothing: two texts with the same escaped
    form are the same text. *)
Theorem xml_escape_injective (s t : str) :
  xml_escape s = xml_escape t -> s = t.
Proof. rewrite !xml_escape_char_by_char. apply escaped_injective. Qed.

Lemma xml_escape_injective_witness : lit "R&D <a>" = lit "R&D <a>".
Proof. apply (xml_escape_injective (lit "R&D <a>") (lit "R&D <a>")). reflexivity. Defined.

(** ** Storage keys *)

Lemma contains_one_char (c : char) (s : str) :
  contains [c] s = existsb (N.eqb c) s.
Proof.
  induction s as [|a r IH]; [reflexivity|].
  cbn [contains starts_with existsb]. rewrite andb_true_r, IH. reflexivity.
Qed.

Lemma existsb_none (c : char) (s : str) :
  forallb (fun x => negb (N.eqb c x)) s = true -> existsb (N.eqb c) s = false.
Proof.
  induction s as [|a r IH]; [reflexivity|]. cbn [forallb existsb]. intros H.
  apply andb_true_iff in H as [Ha Hr]. apply negb_true_iff in Ha.
  rewrite Ha, (IH Hr). reflexivity.
Qed.

(** The part before the first separator. *)
Lemma hd_split_app (c : char) (f q : str) :
  forallb (fun x => negb (N.eqb c x)) f = true ->
  hd [] (split [c] (f ++ c :: q)) = f.
Proof.
  intros H. rewrite split_one_char, split_by_app_sep by apply N.eqb_refl.
  rewrite (split_by_whole (N.eqb c) f H). reflexivity.
Qed.

Lemma hd_split_whole (c : char) (f : str) :
  forallb (fun x => negb (N.eqb c x)) f = true -> hd [] (split [c] f) = f.
Proof.
  intros H. rewrite split_one_char, (split_by_whole (N.eqb c) f H). reflexivity.
Qed.

(** The part after the last separator. *)
Lemma last_split_app (c : char) (stem e : str) :
  forallb (fun x => negb (N.eqb c x)) e = true ->
  last (split [c] (stem ++ c :: e)) [] = e.
Proof.
  intros H. rewrite split_one_char, split_by_app_sep by apply N.eqb_refl.
  rewrite (split_by_whole (N.eqb c) e H). apply last_last.
Qed.

Section KeyFacts.

Variable lower : str -> str.

(** X19.  [S3Handler.create_filename] drops the time of day and the query
    string: a date followed by T and anything, and a file name followed by
    a question mark and anything, give the same key as the bare date and
    the bare file name. *)
Theorem s3_key_drops_time_and_query
    (company_name day time event_title doc_type name query : str) :
  forallb (fun c => negb (N.eqb UPPER_T c)) day = true ->
  forallb (fun c => negb (N.eqb QUESTION c)) name = true ->
  S3Handler.create_filename lower company_name (day ++ lit "T" ++ time)
    event_title doc_type (name ++ lit "?" ++ query)
  = S3Handler.create_filename lower company_name day event_title doc_type name.
Proof.
  intros Hd Hn. unfold S3Handler.create_filename.
  change (lit "T") with [UPPER_T]. change (lit "?") with [QUESTION]. cbn [app].
  rewrite (hd_split_app UPPER_T day time Hd), (hd_split_whole UPPER_T day Hd).
  rewrite !contains_one_char, existsb_app. cbn [existsb]. rewrite N.eqb_refl.
  rewrite orb_true_r, (existsb_none QUESTION name Hn).
  rewrite (hd_split_app QUESTION name query Hn). reflexivity.
Qed.

(** X20.  For a document type other than transcript,
    [S3Handler.create_filename] ends the key with a dot and the lower-cased
    part of the file name after its last dot; a file name without any dot
    is taken whole as the extension. *)
Theorem s3_key_extension
    (company_name event_date event_title doc_type stem ext : str) :
  str_eqb doc_type (lit "transcript") = false ->
  forallb (fun c => negb (N.eqb QUESTION c)) (stem ++ lit "." ++ ext) = true ->
  forallb (fun c => negb (N.eqb DOT c)) ext = true ->
  (exists prefix,
      S3Handler.create_filename lower company_name event_date event_title doc_type
        (stem ++ lit "." ++ ext)
      = prefix ++ lit "_" ++ doc_type ++ lit "." ++ lower ext)
  /\ (exists prefix,
         S3Handler.create_filename lower company_name event_date event_title
           doc_type ext
         = prefix ++ lit "_" ++ doc_type ++ lit "." ++ lower ext).
Proof.
  intros Hty Hq He. unfold S3Handler.create_filename. rewrite Hty.
  change (lit "?") with [QUESTION]. change (lit ".") with [DOT] in *.
  assert (Hq' : forallb (fun c => negb (N.eqb QUESTION c)) ext = true).
  { rewrite !forallb_app in Hq. apply andb_true_iff in Hq as [_ Hq].
    apply andb_true_iff in Hq as [_ Hq]. exact Hq. }
  rewrite !contains_one_char, (existsb_none QUESTION _ Hq), (existsb_none QUESTION _ Hq').
  cbn [app]. rewrite (last_split_app DOT stem ext He).
  rewrite split_one_char, (split_by_whole (N.eqb DOT) ext He). cbn [last].
  split; eexists; rewrite !app_assoc; reflexivity.
Qed.

End KeyFacts.

Lemma s3_key_drops_time_and_query_witness :
  S3Handler.create_filename ascii_lower (lit "Acme Corp")
    (lit "2024-05-01" ++ lit "T" ++ lit "10:00:00Z") (lit "Q1 2024")
    (lit "slides") (lit "deck.PDF" ++ lit "?" ++ lit "token=abc")
  = lit "acme_corp_2024-05-01_q1_2024_slides.pdf".
Proof.
  rewrite (s3_key_drops_time_and_query ascii_lower (lit "Acme Corp")
             (lit "2024-05-01") (lit "10:00:00Z") (lit "Q1 2024") (lit "slides")
             (lit "deck.PDF") (lit "token=abc")); reflexivity.
Defined.

Lemma s3_key_extension_witness :
  exists prefix,
    S3Handler.create_filename ascii_lower (lit "Acme") (lit "2024-05-01") (lit "Q1")
      (lit "report") (lit "README")
    = prefix ++ lit "_" ++ lit "report" ++ lit "." ++ ascii_lower (lit "README").
Proof.
  apply (proj2 (s3_key_extension ascii_lower (lit "Acme") (lit "2024-05-01") (lit "Q1")
                  (lit "report") (lit "annual") (lit "README")
                  eq_refl eq_refl eq_refl)).
Defined.

(** *** The extension taken by os.path.splitext *)

(** [rfind] finds nothing, or the last occurrence. *)
Lemma rfind_from_spec (c : char) (s : str) :
  forall i found,
    (forallb (fun x => negb (N.eqb x c)) s = true
     /\ rfind_from c s i found = found)
    \/ (exists pre post,
           s = pre ++ c :: post
           /\ forallb (fun x => negb (N.eqb x c)) post = true
           /\ rfind_from c s i found = (i + Z.of_nat (List.length pre))%Z).
Proof.
  induction s as [|x r IH]; intros i found.
  - left. split; reflexivity.
  - cbn [rfind_from].
    destruct (IH (i + 1)%Z (if N.eqb x c then i else found))
      as [[Hnone E] | (pre & post & -> & Hpost & E)].
    + destruct (N.eqb_spec x c) as [->|Hx].
      * right. exists [], r. cbn [app List.length]. rewrite E.
        repeat split; [exact Hnone | lia].
      * left. cbn [forallb]. apply N.eqb_neq in Hx. rewrite Hx, Hnone, E.
        split; reflexivity.
    + right. exists (x :: pre), post. cbn [app List.length]. rewrite E.
      repeat split; [exact Hpost | lia].
Qed.

Lemma forallb_skipn (q : char -> bool) (k : nat) (s : str) :
  forallb q s = true -> forallb q (skipn k s) = true.
Proof.
  revert s. induction k as [|k IH]; intros s H; [exact H|].
  destruct s as [|a s]; [reflexivity|]. cbn [skipn]. cbn [forallb] in H.
  apply andb_true_iff in H as [_ H]. exact (IH s H).
Qed.

Lemma splitext_scan_result (p : str) (d f : Z) (fuel : nat) :
  os_path.splitext_scan p d f fuel = (p, [])
  \/ os_path.splitext_scan p d f fuel
     = (firstn (Z.to_nat d) p, skipn (Z.to_nat d) p).
Proof.
  revert f. induction fuel as [|n IH]; intros f; [left; reflexivity|].
  cbn [os_path.splitext_scan].
  destruct (f <? d)%Z; [|left; reflexivity].
  destruct (negb _); [right; reflexivity | apply IH].
Qed.

(** The extension is empty, or it is the part of the path from its last
    dot on, and that part holds no slash. *)
Lemma splitext_cases (p : str) :
  os_path.splitext p = (p, [])
  \/ exists stem rest,
       p = stem ++ DOT :: rest
       /\ forallb (fun x => negb (N.eqb x DOT)) rest = true
       /\ forallb (fun x => negb (N.eqb x SLASH)) rest = true
       /\ os_path.splitext p = (stem, DOT :: rest).
Proof.
  unfold os_path.splitext, rfind.
  destruct (rfind_from DOT p 0 (-1) >? rfind_from SLASH p 0 (-1))%Z eqn:Hgt;
    [|left; reflexivity].
  apply Z.gtb_lt in Hgt.
  destruct (splitext_scan_result p (rfind_from DOT p 0 (-1))
              (rfind_from SLASH p 0 (-1) + 1)
              (Z.to_nat (rfind_from DOT p 0 (-1) - (rfind_from SLASH p 0 (-1) + 1))))
    as [-> | ->]; [left; reflexivity|].
  right.
  destruct (rfind_from_spec DOT p 0 (-1)) as [[_ Ed] | (stem & rest & Hp & Hrest & Ed)].
  - exfalso. rewrite Ed in Hgt.
    destruct (rfind_from_spec SLASH p 0 (-1)) as [[_ Es] | (a & b & _ & _ & Es)];
      rewrite Es in Hgt; lia.
  - exists stem, rest. rewrite Ed. cbn [Z.add]. rewrite Nat2Z.id.
    split; [exact Hp|]. split; [exact Hrest|]. split.
    + destruct (rfind_from_spec SLASH p 0 (-1))
        as [[Hnone _] | (a & b & Hp' & Hb & Es)].
      * rewrite Hp, forallb_app in Hnone. apply andb_true_iff in Hnone as [_ Hn].
        cbn [forallb] in Hn. apply andb_true_iff in Hn as [_ Hn]. exact Hn.
      * rewrite Es, Ed in Hgt. cbn [Z.add] in Hgt.
        assert (E1 : skipn (S (List.length stem)) p = rest).
        { rewrite Hp. replace (stem ++ DOT :: rest) with ((stem ++ [DOT]) ++ rest)
            by (rewrite <- app_assoc; reflexivity).
          replace (S (List.length stem)) with (List.length (stem ++ [DOT]))
            by (rewrite length_app; cbn; lia).
          rewrite skipn_app, skipn_all, Nat.sub_diag. reflexivity. }
        assert (E2 : skipn (S (List.length a)) p = b).
        { rewrite Hp'. replace (a ++ SLASH :: b) with ((a ++ [SLASH]) ++ b)
            by (rewrite <- app_assoc; reflexivity).
          replace (S (List.length a)) with (List.length (a ++ [SLASH]))
            by (rewrite length_app; cbn; lia).
          rewrite skipn_app, skipn_all, Nat.sub_diag. reflexivity. }
        rewrite <- E1.
        replace (S (List.length stem))
          with ((List.length stem - List.length a) + S (List.length a))%nat by lia.
        rewrite <- skipn_skipn, E2. apply forallb_skipn. exact Hb.
    + rewrite Hp, firstn_app, firstn_all, Nat.sub_diag, skipn_app, skipn_all, Nat.sub_diag.
      cbn. rewrite app_nil_r. reflexivity.
Qed.

Lemma flat_map_forallb (q : char -> bool) (f : char -> str) (s : str) :
  (forall c, In c s -> forallb q (f c) = true) -> forallb q (flat_map f s) = true.
Proof.
  induction s as [|a r IH]; intros H; [reflexivity|]. cbn [flat_map].
  rewrite forallb_app, (H a (or_introl eq_refl)). apply IH.
  intros c Hc. apply H. right. exact Hc.
Qed.

Section SupabaseKeyFacts.

Variable lower : str -> str.

(** X21.  The key [SupabaseStorageHandler.create_filename] builds is
    company/type/company_date_type followed by an extension, where the
    company part holds neither space nor hyphen, the date part holds no
    hyphen, and the extension is .pdf or the part of the original file name
    from its last dot on (it starts with a dot and holds no further dot and
    no slash). *)
Theorem supabase_key_shape
    (company_name event_date event_title doc_type original_filename : str) :
  exists safe_company safe_date ext,
    SupabaseStorageHandler.create_filename lower company_name event_date
      event_title doc_type original_filename
    = safe_company ++ lit "/" ++ doc_type ++ lit "/"
        ++ safe_company ++ lit "_" ++ safe_date ++ lit "_" ++ doc_type ++ ext
    /\ forallb (fun c => negb (N.eqb c SP) && negb (N.eqb c HYPHEN)) safe_company = true
    /\ forallb (fun c => negb (N.eqb c HYPHEN)) safe_date = true
    /\ (ext = lit ".pdf"
        \/ exists stem rest,
             original_filename = stem ++ ext
             /\ ext = DOT :: rest
             /\ forallb (fun c => negb (N.eqb c DOT) && negb (N.eqb c SLASH)) rest
                = true).
Proof.
  unfold SupabaseStorageHandler.create_filename.
  eexists _, _, _. split; [reflexivity|]. split; [|split].
  - change (lit "-") with [HYPHEN]. change (lit " ") with [SP]. change (lit "_") with [95%N].
    rewrite !replace_one_char, flat_map_flat_map. apply flat_map_forallb.
    intros c _. destruct (N.eqb_spec c SP) as [->|Hs]; [reflexivity|].
    cbn [flat_map app]. destruct (N.eqb_spec c HYPHEN) as [->|Hh]; [reflexivity|].
    apply N.eqb_neq in Hs, Hh. cbn. rewrite Hs, Hh. reflexivity.
  - change (lit "-") with [HYPHEN]. rewrite replace_one_char. apply flat_map_forallb.
    intros c _. destruct (N.eqb_spec c HYPHEN) as [->|Hh]; [reflexivity|].
    apply N.eqb_neq in Hh. cbn. rewrite Hh. reflexivity.
  - destruct (splitext_cases original_filename)
      as [-> | (stem & rest & Hp & Hd & Hs & ->)]; [left; reflexivity|].
    right. exists stem, rest. cbn [snd nonempty negb]. split; [exact Hp|].
    split; [reflexivity|].
    rewrite forallb_forall in *. intros c Hc.
    rewrite (Hd c Hc), (Hs c Hc). reflexivity.
Qed.

(** X22.  When the original file name holds no dot,
    [SupabaseStorageHandler.create_filename] ends the key with the document
    type followed by .pdf. *)
Theorem supabase_key_default_extension
    (company_name event_date event_title doc_type original_filename : str) :
  forallb (fun c => negb (N.eqb c DOT)) original_filename = true ->
  exists prefix,
    SupabaseStorageHandler.create_filename lower company_name event_date
      event_title doc_type original_filename
    = prefix ++ lit "_" ++ doc_type ++ lit ".pdf".
Proof.
  intros H. unfold SupabaseStorageHandler.create_filename.
  destruct (splitext_cases original_filename)
    as [-> | (stem & rest & Hp & _)].
  - cbn [snd nonempty negb]. eexists. rewrite !app_assoc. reflexivity.
  - exfalso. rewrite Hp, forallb_app in H. apply andb_true_iff in H as [_ H].
    cbn [forallb] in H. rewrite N.eqb_refl in H. discriminate H.
Qed.

End SupabaseKeyFacts.

Lemma supabase_key_default_extension_witness :
  exists prefix,
    SupabaseStorageHandler.create_filename ascii_lower (lit "Acme Corp")
      (lit "2024-05-01") (lit "Q1 2024") (lit "slides") (lit "deck")
    = prefix ++ lit "_" ++ lit "slides" ++ lit ".pdf".
Proof.
  apply (supabase_key_default_extension ascii_lower (lit "Acme Corp")
           (lit "2024-05-01") (lit "Q1 2024") (lit "slides") (lit "deck")).
  reflexivity.
Defined.

(** ** The Supabase storage handler *)

Lemma dirname_without_slash (p : str) :
  forallb (fun c => negb (N.eqb c SLASH)) p = true -> posixpath.dirname p = [].
Proof.
  intros H. unfold posixpath.dirname, rfind.
  destruct (rfind_from_spec SLASH p 0 (-1)) as [[_ ->] | (a & b & Hp & _)].
  - reflexivity.
  - exfalso. rewrite Hp, forallb_app in H. apply andb_true_iff in H as [_ H].
    cbn [forallb] in H. rewrite N.eqb_refl in H. discriminate H.
Qed.

Section StorageFacts.

Variable Outside : Type.
Variable list_buckets : Outside -> Outside * res (list pyval).
Variable create_bucket : Outside -> str -> bool -> Outside * res unit.
Variable upload : Outside -> str -> str -> bytes -> str -> Outside * res unit.
Variable download : Outside -> str -> str -> Outside * res bytes.
Variable makedirs : Outside -> str -> Outside * res unit.
Variable write_file : Outside -> str -> bytes -> Outside * res unit.

Lemma call_run (A : Type) (c : StorageCall) (op : Outside -> Outside * res A)
    (w : SupabaseStorage.Env Outside) :
  SupabaseStorage.call c op w
  = (SupabaseStorage.mkEnv (fst (op (SupabaseStorage.outside w)))
       (SupabaseStorage.calls w ++ [c]),
     snd (op (SupabaseStorage.outside w))).
Proof.
  unfold SupabaseStorage.call. destruct (op (SupabaseStorage.outside w)). reflexivity.
Qed.

(** X25.  [_ensure_bucket_exists] never raises.  Without a client it does
    nothing; with one it lists the buckets and asks for the creation of the
    public bucket alpinedatalake at most once, and only when the listing
    succeeded, every listed bucket has a name and none of the names is
    alpinedatalake. *)
Theorem ensure_bucket_creates_only_when_missing (has_client : bool)
    (w : SupabaseStorage.Env Outside) :
  exists w',
    SupabaseStorage._ensure_bucket_exists list_buckets create_bucket has_client w
    = (w', Ok tt)
    /\ (has_client = false -> w' = w)
    /\ (has_client = true ->
        SupabaseStorage.calls w' = SupabaseStorage.calls w ++ [ListBuckets]
        \/ (SupabaseStorage.calls w'
            = SupabaseStorage.calls w
                ++ [ListBuckets; CreateBucket (lit "alpinedatalake") true]
            /\ exists buckets names,
                 snd (list_buckets (SupabaseStorage.outside w)) = Ok buckets
                 /\ SupabaseStorage.bucket_names buckets = Ok names
                 /\ existsb (is_str (lit "alpinedatalake")) names = false)).
Proof.
  unfold SupabaseStorage._ensure_bucket_exists. destruct has_client.
  2:{ exists w. split; [reflexivity|]. split; [reflexivity | discriminate]. }
  unfold try_except, bind. rewrite call_run.
  destruct (list_buckets (SupabaseStorage.outside w)) as [o1 [buckets|e]] eqn:El;
    cbn [fst snd].
  2:{ eexists. split; [reflexivity|]. split; [discriminate | left; reflexivity]. }
  unfold lift.
  destruct (SupabaseStorage.bucket_names buckets) as [names|e] eqn:En.
  2:{ eexists. split; [reflexivity|]. split; [discriminate | left; reflexivity]. }
  destruct (existsb (is_str SupabaseStorage.bucket_name) names) eqn:Ex; cbn [negb].
  { eexists. split; [reflexivity|]. split; [discriminate | left; reflexivity]. }
  rewrite call_run. cbn [SupabaseStorage.outside SupabaseStorage.calls].
  destruct (create_bucket o1 SupabaseStorage.bucket_name true) as [o2 [u|e]];
    cbn [fst snd]; eexists; (split; [reflexivity|]); (split; [discriminate|]);
    intros _; right; rewrite <- app_assoc;
    (split; [reflexivity|]); exists buckets, names; auto.
Qed.

(** X26.  [upload_file] never raises: without a client it returns False
    and asks nothing of the storage; with one it makes exactly one upload
    call, to the bucket alpinedatalake under the given key with the given
    data and content type, and returns True exactly when that call returns. *)
Theorem upload_file_reports_outcome (has_client : bool) (file_data : bytes)
    (filename content_type : str) (w : SupabaseStorage.Env Outside) :
  SupabaseStorage.upload_file upload has_client file_data filename content_type w
  = if has_client then
      (SupabaseStorage.mkEnv
         (fst (upload (SupabaseStorage.outside w) (lit "alpinedatalake") filename
                 file_data content_type))
         (SupabaseStorage.calls w
            ++ [Upload (lit "alpinedatalake") filename file_data content_type]),
       Ok (match snd (upload (SupabaseStorage.outside w) (lit "alpinedatalake")
                        filename file_data content_type) with
           | Ok _ => true
           | Raise _ => false
           end))
    else (w, Ok false).
Proof.
  unfold SupabaseStorage.upload_file. destruct has_client; [|reflexivity].
  cbn [negb]. unfold try_except, bind. rewrite call_run.
  destruct (upload _ _ _ _ _) as [o [u|e]]; reflexivity.
Qed.

(** X27.  [download_file] with a client never raises and works in three
    steps, each only after the one before succeeded: it creates the
    directory of the local path, downloads the object from the bucket
    alpinedatalake, and writes the downloaded bytes to the local path.  It
    returns True exactly when all three succeeded; after a failed directory
    creation nothing is downloaded, and after a failed download nothing is
    written. *)
Theorem download_file_steps (filename local_path : str)
    (w : SupabaseStorage.Env Outside) :
  let dir := posixpath.dirname local_path in
  let o1 := fst (makedirs (SupabaseStorage.outside w) dir) in
  let o2 := fst (download o1 (lit "alpinedatalake") filename) in
  exists w' ok,
    SupabaseStorage.download_file download makedirs write_file true
      filename local_path w = (w', Ok ok)
    /\ match snd (makedirs (SupabaseStorage.outside w) dir) with
       | Raise _ =>
           ok = false
           /\ SupabaseStorage.calls w' = SupabaseStorage.calls w ++ [Makedirs dir]
       | Ok _ =>
           match snd (download o1 (lit "alpinedatalake") filename) with
           | Raise _ =>
               ok = false
               /\ SupabaseStorage.calls w'
                  = SupabaseStorage.calls w
                      ++ [Makedirs dir; Download (lit "alpinedatalake") filename]
           | Ok data =>
               SupabaseStorage.calls w'
               = SupabaseStorage.calls w
                   ++ [Makedirs dir; Download (lit "alpinedatalake") filename;
                       WriteFile local_path data]
               /\ ok = match snd (write_file o2 local_path data) with
                       | Ok _ => true
                       | Raise _ => false
                       end
           end
       end.
Proof.
  cbv zeta. unfold SupabaseStorage.download_file. cbn [negb].
  unfold try_except. unfold bind at 1. rewrite call_run.
  destruct (makedirs (SupabaseStorage.outside w) (posixpath.dirname local_path))
    as [o1 [u|e]]; cbn [fst snd].
  2:{ eexists _, _. split; [reflexivity|]. split; reflexivity. }
  unfold bind at 1. rewrite call_run. cbn [SupabaseStorage.outside SupabaseStorage.calls].
  destruct (download o1 SupabaseStorage.bucket_name filename) as [o2 [data|e]] eqn:Ed;
    cbn [fst snd]; unfold SupabaseStorage.bucket_name in Ed; rewrite Ed; cbn [fst snd].
  2:{ eexists _, _. split; [reflexivity|]. rewrite <- app_assoc. split; reflexivity. }
  unfold bind. rewrite call_run. cbn [SupabaseStorage.outside SupabaseStorage.calls].
  destruct (write_file o2 local_path data) as [o3 [u'|e]]; cbn [fst snd];
    eexists _, _; (split; [reflexivity|]); rewrite <- !app_assoc; split; reflexivity.
Qed.

(** X28.  A local path without a slash has the empty string as its
    directory: when the file system refuses to create that directory,
    [download_file] returns False without contacting the storage. *)
Theorem download_file_bare_name (filename local_path : str)
    (w : SupabaseStorage.Env Outside) (e : exn) :
  forallb (fun c => negb (N.eqb c SLASH)) local_path = true ->
  snd (makedirs (SupabaseStorage.outside w) []) = Raise e ->
  SupabaseStorage.download_file download makedirs write_file true
    filename local_path w
  = (SupabaseStorage.mkEnv (fst (makedirs (SupabaseStorage.outside w) []))
       (SupabaseStorage.calls w ++ [Makedirs []]),
     Ok false).
Proof.
  intros Hp He. unfold SupabaseStorage.download_file. cbn [negb].
  rewrite (dirname_without_slash local_path Hp).
  unfold try_except. unfold bind at 1. rewrite call_run.
  destruct (makedirs (SupabaseStorage.outside w) []) as [o1 r]. cbn [fst snd] in *.
  subst r. reflexivity.
Qed.

End StorageFacts.

Lemma download_file_bare_name_witness :
  snd (SupabaseStorage.download_file
         (fun (o : unit) _ _ => (o, Ok (lit "%PDF")))
         (fun (o : unit) dir => (o, if nonempty dir then Ok tt else Raise (OtherError 2)))
         (fun (o : unit) _ _ => (o, Ok tt))
         true (lit "acme/transcript/a.pdf") (lit "a.pdf")
         (SupabaseStorage.mkEnv tt []))
  = Ok false.
Proof.
  rewrite (download_file_bare_name
             (fun (o : unit) _ _ => (o, Ok (lit "%PDF")))
             (fun (o : unit) dir => (o, if nonempty dir then Ok tt
                                        else Raise (OtherError 2)))
             (fun (o : unit) _ _ => (o, Ok tt))
             (lit "acme/transcript/a.pdf") (lit "a.pdf")
             (SupabaseStorage.mkEnv tt []) (e:=OtherError 2));
    reflexivity.
Defined.

(** X30.  For the document type transcript, the key
    [S3Handler.create_filename] builds ends in _transcript.pdf and does not
    depend on the original file name at all. *)
Theorem s3_transcript_key_ignores_original (lower : str -> str)
    (company_name event_date event_title name1 name2 : str) :
  S3Handler.create_filename lower company_name event_date event_title
    (lit "transcript") name1
  = S3Handler.create_filename lower company_name event_date event_title
      (lit "transcript") name2
  /\ ends_with (lit "_transcript.pdf")
       (S3Handler.create_filename lower company_name event_date event_title
          (lit "transcript") name1) = true.
Proof.
  split.
  - reflexivity.
  - unfold S3Handler.create_filename.
    replace (str_eqb (lit "transcript") (lit "transcript")) with true
      by (vm_compute; reflexivity).
    rewrite !app_assoc.
    rewrite <- (app_assoc _ (lit "_") (lit "transcript")).
    rewrite <- (app_assoc _ _ (lit ".")).
    rewrite <- (app_assoc _ _ (lit "pdf")).
    rewrite ends_with_app_r by (vm_compute; lia).
    vm_compute. reflexivity.
Qed.
